(** * genemap2-parser: a shallow embedding of [genemap2_parser/script.py]

    The script reads an OMIM genemap2 file, turns every data line into a
    record ([process_line]) and collects the records of all lines
    ([parse_genemap2]).  This development embeds both functions, together
    with the parts of the Python runtime they rely on ([str.strip],
    [str.split], [re.match] on the two phenotype patterns and
    [multiprocessing.Pool.map]), and proves the properties the
    specification states about them. *)

From Stdlib Require Import String Ascii.
From Stdlib Require Import List NArith PeanoNat Bool Lia.
Import ListNotations.

(** ** Text

    A Python [str] is a sequence of Unicode code points. *)

Abbreviation char := N (only parsing).
Abbreviation str := (list N) (only parsing).

(** [u "..."] is the [str] whose code points are the characters of an
    ASCII literal. *)
Definition u (s : string) : str := map N_of_ascii (list_ascii_of_string s).
Arguments u s%_string.

(** Equality of characters. *)
Definition char_eqb (a b : char) : bool := N.eqb a b.

Definition TAB : char := 9%N.
Definition NEWLINE : char := 10%N.
Definition SPACE : char := 32%N.
Definition HASH : char := 35%N.
Definition LPAREN : char := 40%N.
Definition RPAREN : char := 41%N.
Definition COMMA : char := 44%N.
Definition SEMICOLON : char := 59%N.

(** The code points for which [str.isspace] holds; [str.strip] without
    argument and the pattern [\s] both use this set. *)
Definition whitespace : list char :=
  [9; 10; 11; 12; 13; 28; 29; 30; 31; 32; 133; 160; 5760;
   8192; 8193; 8194; 8195; 8196; 8197; 8198; 8199; 8200; 8201; 8202;
   8232; 8233; 8239; 8287; 12288]%N.

Definition is_space (c : char) : bool := existsb (char_eqb c) whitespace.

(** The decimal digits (general category Nd) beyond ASCII, as inclusive
    ranges of code points (Unicode 14.0.0, the database of CPython 3.11). *)
Definition unicode_Nd : list (N * N) :=
  [(1632, 1641); (1776, 1785); (1984, 1993); (2406, 2415); (2534, 2543);
   (2662, 2671); (2790, 2799); (2918, 2927); (3046, 3055); (3174, 3183);
   (3302, 3311); (3430, 3439); (3558, 3567); (3664, 3673); (3792, 3801);
   (3872, 3881); (4160, 4169); (4240, 4249); (6112, 6121); (6160, 6169);
   (6470, 6479); (6608, 6617); (6784, 6793); (6800, 6809); (6992, 7001);
   (7088, 7097); (7232, 7241); (7248, 7257); (42528, 42537); (43216, 43225);
   (43264, 43273); (43472, 43481); (43504, 43513); (43600, 43609);
   (44016, 44025); (65296, 65305); (66720, 66729); (68912, 68921);
   (69734, 69743); (69872, 69881); (69942, 69951); (70096, 70105);
   (70384, 70393); (70736, 70745); (70864, 70873); (71248, 71257);
   (71360, 71369); (71472, 71481); (71904, 71913); (72016, 72025);
   (72784, 72793); (73040, 73049); (73120, 73129); (92768, 92777);
   (92864, 92873); (93008, 93017); (120782, 120831); (123200, 123209);
   (123632, 123641); (125264, 125273); (130032, 130041)]%N.

Definition in_range (c : char) (r : N * N) : bool :=
  (fst r <=? c)%N && (c <=? snd r)%N.

(** [\d] in a [str] pattern: any Unicode decimal digit. *)
Definition is_digit (c : char) : bool :=
  if (c <? 128)%N then in_range c (48, 57)%N
  else existsb (in_range c) unicode_Nd.

(** *** [str.startswith], [str.strip], [str.split] *)

Fixpoint startswith (s prefix : str) {struct prefix} : bool :=
  match prefix, s with
  | [], _ => true
  | p :: prefix', c :: s' => char_eqb c p && startswith s' prefix'
  | _ :: _, [] => false
  end.

Fixpoint lstrip (s : str) : str :=
  match s with
  | c :: s' => if is_space c then lstrip s' else s
  | [] => []
  end.

Definition rstrip (s : str) : str := rev (lstrip (rev s)).

Definition strip (s : str) : str := rstrip (lstrip s).

(** [split_from sep skip cur s] scans [s] from left to right.  [cur] holds
    the characters of the field being read, last one first; [skip] counts
    the characters of a separator occurrence still to be passed over. *)
Fixpoint split_from (sep : str) (skip : nat) (cur : str) (s : str)
  : list str :=
  match s with
  | [] => [rev cur]
  | c :: s' =>
      match skip with
      | S k => split_from sep k cur s'
      | O =>
          if startswith s sep
          then rev cur :: split_from sep (length sep - 1) [] s'
          else split_from sep 0 (c :: cur) s'
      end
  end.

(** [s.split(sep)] for a non-empty separator. *)
Definition split (s sep : str) : list str := split_from sep 0 [] s.

(** ** Regular expressions

    The fragment of Python's [re] syntax that the two phenotype patterns are
    written in, matched the way [re.match] does: from the start of the
    subject, by backtracking, a greedy star trying the longest run first and
    an alternation trying its branches from left to right. *)

Inductive cls : Type :=
  | Any                 (* .   any character but a newline *)
  | Space               (* \s *)
  | Digit               (* \d *)
  | Lit (c : char).     (* a literal character *)

Inductive re : Type :=
  | Bol                         (* ^ *)
  | Eol                         (* $ *)
  | Atom (p : cls)
  | Star (p : cls)              (* p*   greedy *)
  | Rep (n : nat) (p : cls)     (* p{n} *)
  | Empty
  | Seq (r1 r2 : re)
  | Alt (r1 r2 : re)            (* r1|r2 *)
  | Group (i : nat) (r : re).   (* (r), the i-th group of the pattern *)

Declare Scope re_scope.
Delimit Scope re_scope with re.
Bind Scope re_scope with re.
Infix ";;" := Seq (at level 61, right associativity) : re_scope.

Definition in_cls (p : cls) (c : char) : bool :=
  match p with
  | Any => negb (char_eqb c NEWLINE)
  | Space => is_space c
  | Digit => is_digit c
  | Lit a => char_eqb c a
  end.

(** The groups of a match: [g i] is what [matcher.group(i)] returns, [None]
    for a group that took no part in the match. *)
Definition groups := nat -> option str.

Definition no_groups : groups := fun _ => None.

Definition set_group (i : nat) (v : str) (g : groups) : groups :=
  fun j => if Nat.eqb j i then Some v else g j.

(** [$] without [re.MULTILINE]: the end of the subject, or just before a
    newline that ends the subject. *)
Definition at_end (s : str) : bool :=
  match s with
  | [] => true
  | [c] => char_eqb c NEWLINE
  | _ => false
  end.

(** The text that a group has matched, given the input at its start and
    the input left at its end. *)
Definition capture (s s' : str) : str := firstn (length s - length s') s.

Section Matcher.

(** The whole subject; [^] compares the rest of the input with it. *)
Variable subject : str.

(** A continuation takes the input still to be read and the groups set so
    far and answers with the groups of a complete match, if there is one. *)
Definition cont := str -> groups -> option groups.

Fixpoint star (p : cls) (k : cont) (s : str) (g : groups) : option groups :=
  match s with
  | c :: s' =>
      if in_cls p c then
        match star p k s' g with
        | Some g' => Some g'
        | None => k s g
        end
      else k s g
  | [] => k s g
  end.

Fixpoint rep (n : nat) (p : cls) (k : cont) (s : str) (g : groups)
  : option groups :=
  match n with
  | O => k s g
  | S n' =>
      match s with
      | c :: s' => if in_cls p c then rep n' p k s' g else None
      | [] => None
      end
  end.

Fixpoint run (r : re) (k : cont) (s : str) (g : groups) : option groups :=
  match r with
  | Bol => if Nat.eqb (length s) (length subject) then k s g else None
  | Eol => if at_end s then k s g else None
  | Atom p =>
      match s with
      | c :: s' => if in_cls p c then k s' g else None
      | [] => None
      end
  | Star p => star p k s g
  | Rep n p => rep n p k s g
  | Empty => k s g
  | Seq r1 r2 => run r1 (run r2 k) s g
  | Alt r1 r2 =>
      match run r1 k s g with
      | Some g' => Some g'
      | None => run r2 k s g
      end
  | Group i r' =>
      run r' (fun s' g' => k s' (set_group i (capture s s') g')) s g
  end.

End Matcher.

(** [re.match(pattern, s)]: the match has to start at the beginning of [s]
    and may end anywhere. *)
Definition re_match (pattern : re) (s : str) : option groups :=
  run s pattern (fun _ g => Some g) s no_groups.

(** Grammar A.  With [N] and [I] standing for a greedy run of any
    characters (dot-star), the pattern of the source reads
    [^(N),\s(\d{6})\s\((\d)\)(|, (I))$]. *)
Definition grammar_A : re :=
  (Bol ;; Group 1 (Star Any) ;; Atom (Lit COMMA) ;; Atom Space ;;
   Group 2 (Rep 6 Digit) ;; Atom Space ;;
   Atom (Lit LPAREN) ;; Group 3 (Atom Digit) ;; Atom (Lit RPAREN) ;;
   Group 4 (Alt Empty
                (Atom (Lit COMMA) ;; Atom (Lit SPACE) ;; Group 5 (Star Any))) ;;
   Eol)%re.

(** Grammar B, in the same way: [^(N)\((\d)\)(|, (I))$]. *)
Definition grammar_B : re :=
  (Bol ;; Group 1 (Star Any) ;;
   Atom (Lit LPAREN) ;; Group 2 (Atom Digit) ;; Atom (Lit RPAREN) ;;
   Group 3 (Alt Empty
                (Atom (Lit COMMA) ;; Atom (Lit SPACE) ;; Group 4 (Star Any))) ;;
   Eol)%re.

(** ** Records *)

Module Phenotype.
Record t : Type := mk {
  name : str;
  mim_number : option str;
  mapping_key : str;
  inheritance : list str
}.
End Phenotype.

Record GeneRecord : Type := mkGeneRecord {
  chromosome : str;
  genomic_position_start : str;
  genomic_position_end : str;
  cyto_location : str;
  computed_cyto_location : str;
  mim_number : str;
  gene_symbols : str;
  gene_name : str;
  approved_gene_symbol : str;
  entrez_gene_id : str;
  ensembl_gene_id : str;
  comments : str;
  mouse : str;
  phenotypes : list Phenotype.t
}.

(** ** Exceptions *)

Inductive exn : Type :=
  | ValueError (msg : str)
  | FileNotFoundError (msg : str)
  | IOError (msg : str).

Inductive result (A : Type) : Type :=
  | Ok (a : A)
  | Raise (e : exn).

Arguments Ok {A} a.
Arguments Raise {A} e.

(** ** [process_line] *)

(** Truth value of a group: [None] and the empty string are false. *)
Definition group_truthy (o : option str) : bool :=
  match o with
  | Some (_ :: _) => true
  | _ => false
  end.

(** [matcher.group(i)] of a group that is known to have matched. *)
Definition group (g : groups) (i : nat) : str :=
  match g i with
  | Some s => s
  | None => []
  end.

(** [matcher.group(i).split(', ') if matcher.group(i) else []] *)
Definition inheritances_of (g : groups) (i : nat) : list str :=
  if group_truthy (g i) then split (group g i) (u ", ") else [].

(** The body of the loop over the phenotype entries: the annotation that
    the entry adds to [phenotypes], or [None] where the loop moves on with
    [continue]. *)
Definition phenotype_entry (phenotype : str) : option Phenotype.t :=
  let phenotype := strip phenotype in
  match re_match grammar_A phenotype with
  | Some matcher =>
      Some {| Phenotype.name := group matcher 1;
              Phenotype.mim_number := Some (group matcher 2);
              Phenotype.mapping_key := group matcher 3;
              Phenotype.inheritance := inheritances_of matcher 5 |}
  | None =>
      match re_match grammar_B phenotype with
      | Some matcher =>
          Some {| Phenotype.name := group matcher 1;
                  Phenotype.mim_number := None;
                  Phenotype.mapping_key := group matcher 2;
                  Phenotype.inheritance := inheritances_of matcher 4 |}
      | None => None
      end
  end.

(** The loop [for phenotype in ...: ... phenotypes.append(...)]. *)
Fixpoint phenotype_loop (entries : list str) : list Phenotype.t :=
  match entries with
  | [] => []
  | phenotype :: rest =>
      match phenotype_entry phenotype with
      | Some a => a :: phenotype_loop rest
      | None => phenotype_loop rest
      end
  end.

Definition is_empty (s : str) : bool :=
  match s with
  | [] => true
  | _ :: _ => false
  end.

Definition column_error (line : str) : exn :=
  ValueError (u "Unexpected number of columns in line: " ++ line).

(** [process_line(line)]: [Ok None] where the source returns [None],
    [Ok (Some r)] where it returns a dictionary, [Raise e] where it raises. *)
Definition process_line (line : str) : result (option GeneRecord) :=
  if startswith line [HASH] || is_empty (strip line) then Ok None
  else
    let value_list := split (strip line) [TAB] in
    if length value_list <? 14 then Ok None
    else
      match value_list with
      | [chromosome; genomic_position_start; genomic_position_end;
         cyto_location; computed_cyto_location; mim_number;
         gene_symbols; gene_name; approved_gene_symbol; entrez_gene_id;
         ensembl_gene_id; comments; phenotype_string; mouse] =>
          if is_empty phenotype_string then Ok None
          else
            Ok (Some {|
              chromosome := chromosome;
              genomic_position_start := genomic_position_start;
              genomic_position_end := genomic_position_end;
              cyto_location := cyto_location;
              computed_cyto_location := computed_cyto_location;
              mim_number := mim_number;
              gene_symbols := gene_symbols;
              gene_name := gene_name;
              approved_gene_symbol := approved_gene_symbol;
              entrez_gene_id := entrez_gene_id;
              ensembl_gene_id := ensembl_gene_id;
              comments := comments;
              mouse := mouse;
              phenotypes :=
                phenotype_loop (split phenotype_string [SEMICOLON]) |})
      | _ => Raise (column_error line)
      end.

(** ** [multiprocessing.Pool.map] *)

Section Pool.

Context {A B : Type}.

(** The number of worker processes of [Pool()], the machine's CPU count. *)
Variable processes : nat.

Variable func : A -> result B.

(** [divmod(len(iterable), len(self._pool) * 4)], rounded up. *)
Definition chunksize (n : nat) : nat :=
  let d := processes * 4 in
  if n mod d =? 0 then n / d else n / d + 1.

(** [Pool._get_tasks]: the items in batches of [size], in order.  [left]
    counts the room left in the batch being filled, [cur] holds its items,
    last one first. *)
Fixpoint get_tasks_from (size left : nat) (cur xs : list A)
  : list (list A) :=
  match xs with
  | [] => match cur with [] => [] | _ :: _ => [rev cur] end
  | x :: xs' =>
      match left with
      | S (S l) => get_tasks_from size (S l) (x :: cur) xs'
      | _ => rev (x :: cur) :: get_tasks_from size size [] xs'
      end
  end.

Definition get_tasks (xs : list A) (size : nat) : list (list A) :=
  get_tasks_from size size [] xs.

(** [mapstar]: a worker applies [func] to the items of its batch one after
    the other; the first exception ends the batch. *)
Fixpoint mapstar (xs : list A) : result (list B) :=
  match xs with
  | [] => Ok []
  | x :: xs' =>
      match func x with
      | Raise e => Raise e
      | Ok y =>
          match mapstar xs' with
          | Ok ys => Ok (y :: ys)
          | Raise e => Raise e
          end
      end
  end.

Definition batch_results (xs : list A) : list (result (list B)) :=
  map mapstar (get_tasks xs (chunksize (length xs))).

(** What [pool.map(func, xs)] can do.  When every batch succeeds the
    results come back in the order of the items.  Otherwise the exception
    of the batch that fails first in time is raised again in the caller,
    and any failing batch can be that one. *)
Inductive pool_map (xs : list A) : result (list B) -> Prop :=
  | pool_map_returns (yss : list (list B)) :
      batch_results xs = map Ok yss ->
      pool_map xs (Ok (concat yss))
  | pool_map_raises (e : exn) :
      In (Raise e) (batch_results xs) ->
      pool_map xs (Raise e).

(** The schedule in which the batches finish in the order they were
    handed out. *)
Fixpoint collect (rs : list (result (list B))) : result (list B) :=
  match rs with
  | [] => Ok []
  | Raise e :: _ => Raise e
  | Ok ys :: rs' =>
      match collect rs' with
      | Ok zs => Ok (ys ++ zs)
      | Raise e => Raise e
      end
  end.

Definition pool_map_in_order (xs : list A) : result (list B) :=
  collect (batch_results xs).

End Pool.

(** ** [parse_genemap2] *)

(** What opening and reading the file gives: its lines, one of the two
    failures the function handles ([e] is the text of the I/O error), or an
    exception it does not handle, such as a decoding error. *)
Inductive read_outcome : Type :=
  | ReadLines (lines : list str)
  | ReadNotFound
  | ReadFailed (e : str)
  | ReadRaises (e : exn).

Definition not_found_error (filename : str) : exn :=
  FileNotFoundError (u "Input file '" ++ filename ++ u "' not found.").

Definition read_error (filename e : str) : exn :=
  IOError (u "Error reading file '" ++ filename ++ u "': " ++ e).

(** [[entry for entry in parsed_data if entry]]: a record is a dictionary
    with fourteen keys, hence true; [None] is false. *)
Fixpoint kept_entries (parsed_data : list (option GeneRecord))
  : list GeneRecord :=
  match parsed_data with
  | [] => []
  | Some entry :: rest => entry :: kept_entries rest
  | None :: rest => kept_entries rest
  end.

Section Parse.

Variable processes : nat.
Variable filename : str.

(** [parse_genemap2(filename)], given what reading the file gives. *)
Inductive parse_genemap2 : read_outcome -> result (list GeneRecord) -> Prop :=
  | parse_not_found :
      parse_genemap2 ReadNotFound (Raise (not_found_error filename))
  | parse_read_failed (e : str) :
      parse_genemap2 (ReadFailed e) (Raise (read_error filename e))
  | parse_read_raises (e : exn) :
      parse_genemap2 (ReadRaises e) (Raise e)
  | parse_raises (lines : list str) (e : exn) :
      pool_map processes process_line lines (Raise e) ->
      parse_genemap2 (ReadLines lines) (Raise e)
  | parse_returns (lines : list str) (parsed_data : list (option GeneRecord)) :
      pool_map processes process_line lines (Ok parsed_data) ->
      parse_genemap2 (ReadLines lines) (Ok (kept_entries parsed_data)).

(** The same function when the batches finish in order. *)
Definition parse_genemap2_in_order (file : read_outcome)
  : result (list GeneRecord) :=
  match file with
  | ReadNotFound => Raise (not_found_error filename)
  | ReadFailed e => Raise (read_error filename e)
  | ReadRaises e => Raise e
  | ReadLines lines =>
      match pool_map_in_order processes process_line lines with
      | Ok parsed_data => Ok (kept_entries parsed_data)
      | Raise e => Raise e
      end
  end.

End Parse.

(** ** [main]

    [main] works on the file system through [pathlib] and writes its result
    with [pickle].  Neither is part of the script, so they are taken as
    given: a type of paths with the operations that [main] and
    [parse_genemap2] use on them. *)

Record Pathlib : Type := {
  path : Type;
  Path : str -> path;                       (* Path(s) *)
  path_str : path -> str;                   (* str(p), as in an f-string *)
  path_exists : path -> bool;               (* p.exists() *)
  path_is_file : path -> bool;              (* p.is_file() *)
  path_is_dir : path -> bool;               (* p.is_dir() *)
  path_suffix : path -> str;                (* p.suffix *)
  path_div : path -> str -> path;           (* p / name *)
  read_lines : path -> read_outcome;        (* p.open('r'), readlines() *)
  (* p.open('wb') and pickle.dump(data, file): [None] when both succeed,
     else the text of the IOError *)
  dump : path -> list GeneRecord -> option str
}.

Fixpoint str_eqb (a b : str) : bool :=
  match a, b with
  | [], [] => true
  | x :: a', y :: b' => char_eqb x y && str_eqb a' b'
  | _, _ => false
  end.

(** The arguments as [argparse] hands them over: [--input_file] is
    required, [--output_path] has the default ".". *)
Definition output_path_arg (given : option str) : str :=
  match given with
  | Some s => s
  | None => u "."
  end.

(** How a run of [main] ends. *)
Inductive main_outcome (P : Type) : Type :=
  | Dumped (file : P) (data : list GeneRecord)
  | DumpFailed (file : P) (data : list GeneRecord) (e : exn)
  | Aborted (e : exn).

Arguments Dumped {P} file data.
Arguments DumpFailed {P} file data e.
Arguments Aborted {P} e.

Section Main.

Variable fs : Pathlib.
Variable processes : nat.

(** The five checks of [main], in their order: the exception of the first
    one that fails. *)
Definition check_paths (input_file output_path : path fs) : option exn :=
  if negb (path_exists fs input_file) then
    Some (FileNotFoundError
            (u "Input file '" ++ path_str fs input_file
               ++ u "' does not exist."))
  else if negb (path_is_file fs input_file) then
    Some (ValueError
            (u "Specified input path '" ++ path_str fs input_file
               ++ u "' is not a valid file."))
  else if negb (str_eqb (path_suffix fs input_file) (u ".txt")) then
    Some (ValueError
            (u "Expected a .txt file but got '" ++ path_suffix fs input_file
               ++ u "' instead."))
  else if negb (path_exists fs output_path) then
    Some (FileNotFoundError
            (u "Output path '" ++ path_str fs output_path
               ++ u "' does not exist."))
  else if negb (path_is_dir fs output_path) then
    Some (ValueError
            (u "Specified output path '" ++ path_str fs output_path
               ++ u "' is not a directory."))
  else None.

Definition write_error (e : str) : exn :=
  IOError (u "Error writing output file: " ++ e).

(** [main()], given the two arguments. *)
Inductive main (args_input_file : str) (args_output_path : option str)
  : main_outcome (path fs) -> Prop :=
  | main_check_fails (e : exn) :
      check_paths (Path fs args_input_file)
                  (Path fs (output_path_arg args_output_path)) = Some e ->
      main args_input_file args_output_path (Aborted e)
  | main_parse_raises (e : exn) :
      check_paths (Path fs args_input_file)
                  (Path fs (output_path_arg args_output_path)) = None ->
      parse_genemap2 processes (path_str fs (Path fs args_input_file))
                     (read_lines fs (Path fs args_input_file)) (Raise e) ->
      main args_input_file args_output_path (Aborted e)
  | main_dumps (parsed_data : list GeneRecord) :
      check_paths (Path fs args_input_file)
                  (Path fs (output_path_arg args_output_path)) = None ->
      parse_genemap2 processes (path_str fs (Path fs args_input_file))
                     (read_lines fs (Path fs args_input_file))
                     (Ok parsed_data) ->
      dump fs (path_div fs (Path fs (output_path_arg args_output_path))
                        (u "output.pickle"))
           parsed_data = None ->
      main args_input_file args_output_path
           (Dumped (path_div fs (Path fs (output_path_arg args_output_path))
                             (u "output.pickle"))
                   parsed_data)
  | main_dump_fails (parsed_data : list GeneRecord) (e : str) :
      check_paths (Path fs args_input_file)
                  (Path fs (output_path_arg args_output_path)) = None ->
      parse_genemap2 processes (path_str fs (Path fs args_input_file))
                     (read_lines fs (Path fs args_input_file))
                     (Ok parsed_data) ->
      dump fs (path_div fs (Path fs (output_path_arg args_output_path))
                        (u "output.pickle"))
           parsed_data = Some e ->
      main args_input_file args_output_path
           (DumpFailed (path_div fs (Path fs (output_path_arg args_output_path))
                                 (u "output.pickle"))
                       parsed_data (write_error e)).

End Main.

(** ** The specification's reading of the output

    The records of the lines, one line after the other, lines without a
    record left out. *)
Fixpoint records_in_order (lines : list str) : list GeneRecord :=
  match lines with
  | [] => []
  | line :: rest =>
      match process_line line with
      | Ok (Some record) => record :: records_in_order rest
      | _ => records_in_order rest
      end
  end.

(** ** Reading a row *)

(** The fields of a line, as [process_line] sees them. *)
Definition fields_of (line : str) : list str := split (strip line) [TAB].

(** The field at zero-indexed position [i]. *)
Definition field (i : nat) (line : str) : str := nth i (fields_of line) [].

(** The two tests of the first [if] of [process_line]. *)
Definition is_comment (line : str) : bool := startswith line [HASH].

Definition is_blank (line : str) : bool := is_empty (strip line).

(** The number of tab characters of a text. *)
Definition tabs (s : str) : nat :=
  length (filter (fun c => char_eqb c TAB) s).

(** Whether [re.match] finds a match. *)
Definition matches (pattern : re) (s : str) : bool :=
  match re_match pattern s with
  | Some _ => true
  | None => false
  end.

(** ** The two grammars, read as the specification describes them

    The specification describes Grammar A by the shape of an entry: a name,
    then an occurrence of the pattern ", NNNNNN (n)", then either nothing or
    ", " and the inheritance text.  The definitions below spell that
    reading out on lists, without the regular expressions; the theorems on
    the matcher compare it with [re_match] on [grammar_A] and
    [grammar_B]. *)

Definition not_newline (c : char) : bool := negb (char_eqb c NEWLINE).

(** The part of a text before its first newline, and the rest. *)
Fixpoint take_line (t : str) : str :=
  match t with
  | c :: t' => if not_newline c then c :: take_line t' else []
  | [] => []
  end.

Fixpoint drop_line (t : str) : str :=
  match t with
  | c :: t' => if not_newline c then drop_line t' else t
  | [] => []
  end.

(** An occurrence of ", NNNNNN (n)" at the head of [b]: a comma, a
    whitespace character, six digits, a whitespace character and a digit in
    parentheses.  The result holds the number, the key and what follows. *)
Definition mim_key_at (b : str) : option (str * str * str) :=
  match b with
  | c :: w1 :: d1 :: d2 :: d3 :: d4 :: d5 :: d6 :: w2 :: lp :: k :: rp :: rest =>
      if char_eqb c COMMA && is_space w1
         && forallb is_digit [d1; d2; d3; d4; d5; d6]
         && is_space w2 && char_eqb lp LPAREN && is_digit k
         && char_eqb rp RPAREN
      then Some ([d1; d2; d3; d4; d5; d6], [k], rest)
      else None
  | _ => None
  end.

(** An occurrence of "(n)" at the head of [b], for Grammar B. *)
Definition key_at (b : str) : option (str * str) :=
  match b with
  | lp :: k :: rp :: rest =>
      if char_eqb lp LPAREN && is_digit k && char_eqb rp RPAREN
      then Some ([k], rest)
      else None
  | _ => None
  end.

(** What may follow an occurrence for the entry to be complete: the end of
    the entry ([Some None]), or ", " and an inheritance text that runs to
    the end of the entry ([Some (Some text)]).  [None]: neither. *)
Definition inheritance_text (rest : str) : option (option str) :=
  if at_end rest then Some None
  else
    match rest with
    | c1 :: c2 :: t =>
        if char_eqb c1 COMMA && char_eqb c2 SPACE && at_end (drop_line t)
        then Some (Some (take_line t))
        else None
    | _ => None
    end.

(** Every way to cut a text into a front and a rest, the longest front
    first. *)
Fixpoint cuts (s : str) : list (str * str) :=
  match s with
  | [] => [([], [])]
  | c :: s' => map (fun cut => (c :: fst cut, snd cut)) (cuts s') ++ [([], s)]
  end.

(** The first result that a list gives under [f]. *)
Fixpoint first_some {X Y : Type} (f : X -> option Y) (l : list X) : option Y :=
  match l with
  | [] => None
  | x :: l' =>
      match f x with
      | Some y => Some y
      | None => first_some f l'
      end
  end.

(** A cut that is an entry of Grammar A: the name (on one line), the
    number, the key and the inheritance text. *)
Definition occurrence_A (cut : str * str)
  : option (str * str * str * option str) :=
  if forallb not_newline (fst cut) then
    match mim_key_at (snd cut) with
    | Some (mim, key, rest) =>
        match inheritance_text rest with
        | Some inh => Some (fst cut, mim, key, inh)
        | None => None
        end
    | None => None
    end
  else None.

Definition occurrence_B (cut : str * str) : option (str * str * option str) :=
  if forallb not_newline (fst cut) then
    match key_at (snd cut) with
    | Some (key, rest) =>
        match inheritance_text rest with
        | Some inh => Some (fst cut, key, inh)
        | None => None
        end
    | None => None
    end
  else None.

(** The right-most occurrence that completes an entry. *)
Definition rightmost_A (seg : str) : option (str * str * str * option str) :=
  first_some occurrence_A (cuts seg).

Definition rightmost_B (seg : str) : option (str * str * option str) :=
  first_some occurrence_B (cuts seg).

(** The inheritance modes of an inheritance text. *)
Definition modes (inh : option str) : list str :=
  match inh with
  | Some (c :: t) => split (c :: t) (u ", ")
  | _ => []
  end.

(** The occurrences of ", NNNNNN (n)" in a text, complete or not: the
    number and the key of each, from left to right. *)
Definition pattern_occurrences (seg : str) : list (str * str) :=
  flat_map (fun cut => match mim_key_at (snd cut) with
                       | Some (mim, key, _) => [(mim, key)]
                       | None => []
                       end)
           (rev (cuts seg)).

(** No character of [s] is [x]. *)
Definition lacks (x : char) (s : str) : bool :=
  forallb (fun c => negb (char_eqb c x)) s.

(** An entry written as Grammar A wants it: the name, ", ", the number,
    " (", the key, ")", and then nothing or ", " and the inheritance text. *)
Definition entry_text (name number : str) (key : char) (inh : option str)
  : str :=
  name ++ COMMA :: SPACE :: number ++ SPACE :: LPAREN :: key :: RPAREN ::
       match inh with
       | Some t => COMMA :: SPACE :: t
       | None => []
       end.

(** ** The patterns in parts

    Both patterns are a greedy name followed by a fixed part and a common
    end; the lemmas on the matcher treat the parts one by one. *)

(** The continuation of [re_match]: whatever is left, the match stands. *)
Definition accept : cont := fun _ g => Some g.

Arguments capture : simpl never.

(** The common end: group [i] holding nothing or ", " and group [j], then
    the end of the subject. *)
Definition tail_pattern (i j : nat) : re :=
  (Group i (Alt Empty
              (Atom (Lit COMMA) ;; Atom (Lit SPACE) ;; Group j (Star Any))) ;;
   Eol)%re.

Arguments tail_pattern : simpl never.

(** What follows the name in Grammar A and in Grammar B. *)
Definition suffix_A : re :=
  (Atom (Lit COMMA) ;; Atom Space ;; Group 2 (Rep 6 Digit) ;; Atom Space ;;
   Atom (Lit LPAREN) ;; Group 3 (Atom Digit) ;; Atom (Lit RPAREN) ;;
   tail_pattern 4 5)%re.

Definition suffix_B : re :=
  (Atom (Lit LPAREN) ;; Group 2 (Atom Digit) ;; Atom (Lit RPAREN) ;;
   tail_pattern 3 4)%re.

(** The groups that [process_line] reads from a match of either grammar,
    and the same four (three) values of an occurrence. *)
Definition fields_A (g : groups) := (g 1, g 2, g 3, g 5).

Definition fields_B (g : groups) := (g 1, g 2, g 4).

Definition parts_A (o : str * str * str * option str) :=
  let '(name, mim, key, inh) := o in (Some name, Some mim, Some key, inh).

Definition parts_B (o : str * str * option str) :=
  let '(name, key, inh) := o in (Some name, Some key, inh).

(** ** Sample input *)

(** [sep.join(parts)] *)
Fixpoint join (sep : str) (parts : list str) : str :=
  match parts with
  | [] => []
  | [p] => p
  | p :: rest => p ++ sep ++ join sep rest
  end.

(** A line of the file: the fields joined by tabs, and the newline. *)
Definition tab_line (fields : list string) : str :=
  join [TAB] (map u fields) ++ [NEWLINE].

Local Open Scope string_scope.

Definition row_blank_phenotype : str :=
  tab_line ["1"; "1000"; "2000"; "1p36"; "1p36.33"; "100000"; "GENE1, G1";
            "Gene one"; "GENE1"; "101"; "ENSG001"; "a comment";
            " "; "Gene1 (MGI:1)"].

Definition row_empty_phenotype : str :=
  tab_line ["1"; "1000"; "2000"; "1p36"; "1p36.33"; "100000"; "GENE1, G1";
            "Gene one"; "GENE1"; "101"; "ENSG001"; "a comment";
            ""; "Gene1 (MGI:1)"].

Definition row_one_phenotype : str :=
  tab_line ["1"; "1000"; "2000"; "1p36"; "1p36.33"; "100000"; "GENE1, G1";
            "Gene one"; "GENE1"; "101"; "ENSG001"; "a comment";
            "Some syndrome(1)"; "Gene1 (MGI:1)"].

Definition row_malformed_phenotype : str :=
  tab_line ["1"; "1000"; "2000"; "1p36"; "1p36.33"; "100000"; "GENE1, G1";
            "Gene one"; "GENE1"; "101"; "ENSG001"; "a comment";
            "malformed entry without parens"; "Gene1 (MGI:1)"].

Definition row_thirteen_fields : str :=
  tab_line ["1"; "1000"; "2000"; "1p36"; "1p36.33"; "100000"; "GENE1, G1";
            "Gene one"; "GENE1"; "101"; "ENSG001"; "a comment";
            "Some syndrome(1)"].

Definition row_fifteen_fields : str :=
  tab_line ["1"; "1000"; "2000"; "1p36"; "1p36.33"; "100000"; "GENE1, G1";
            "Gene one"; "GENE1"; "101"; "ENSG001"; "a comment";
            "Some syndrome(1)"; "Gene1 (MGI:1)"; "extra"].


Local Close Scope string_scope.

Definition comment_line : str := u "# Generated by OMIM" ++ [NEWLINE].

Definition blank_line : str := [NEWLINE].

Definition overflowing_lines : list str :=
  [comment_line; row_one_phenotype; row_fifteen_fields].

Definition sample_lines : list str :=
  [comment_line; row_one_phenotype; blank_line; row_empty_phenotype;
   row_thirteen_fields; row_malformed_phenotype].

(** ** Further readings and sample data *)

(** The text of a row: the thirteen text fields of a record and the
    phenotype field, in file order, joined by tabs. *)
Definition row_text (r : GeneRecord) (phenotype_string : str) : str :=
  join [TAB]
       [chromosome r; genomic_position_start r; genomic_position_end r;
        cyto_location r; computed_cyto_location r; mim_number r;
        gene_symbols r; gene_name r; approved_gene_symbol r;
        entrez_gene_id r; ensembl_gene_id r; comments r;
        phenotype_string; mouse r].

(** The text fields of a record, in file order. *)
Definition text_fields (r : GeneRecord) : list str :=
  [chromosome r; genomic_position_start r; genomic_position_end r;
   cyto_location r; computed_cyto_location r; mim_number r;
   gene_symbols r; gene_name r; approved_gene_symbol r;
   entrez_gene_id r; ensembl_gene_id r; comments r; mouse r].

(** [r] with its [phenotypes] replaced. *)
Definition with_phenotypes (r : GeneRecord) (l : list Phenotype.t)
  : GeneRecord :=
  {| chromosome := chromosome r;
     genomic_position_start := genomic_position_start r;
     genomic_position_end := genomic_position_end r;
     cyto_location := cyto_location r;
     computed_cyto_location := computed_cyto_location r;
     mim_number := mim_number r;
     gene_symbols := gene_symbols r;
     gene_name := gene_name r;
     approved_gene_symbol := approved_gene_symbol r;
     entrez_gene_id := entrez_gene_id r;
     ensembl_gene_id := ensembl_gene_id r;
     comments := comments r;
     mouse := mouse r;
     phenotypes := l |}.

(** What follows the key in the text of an annotation: nothing when there
    are no inheritance modes, else ", " and the modes joined by ", ". *)
Definition inheritance_tail (l : list str) : str :=
  match l with
  | [] => []
  | _ :: _ => COMMA :: SPACE :: join (u ", ") l
  end.

(** A line that is neither a comment nor blank. *)
Definition data_line (line : str) : bool :=
  negb (is_comment line) && negb (is_blank line).

(** A file system for the examples: one input file of [sample_lines] and
    the current directory. *)
Definition sample_fs : Pathlib :=
  {| path := str;
     Path := fun s => s;
     path_str := fun p => p;
     path_exists := fun p => str_eqb p (u "genemap2.txt") || str_eqb p (u ".");
     path_is_file := fun p => str_eqb p (u "genemap2.txt");
     path_is_dir := fun p => str_eqb p (u ".");
     path_suffix :=
       fun p => if str_eqb p (u "genemap2.txt") then u ".txt" else [];
     path_div := fun p name => p ++ u "/" ++ name;
     read_lines := fun _ => ReadLines sample_lines;
     dump := fun _ _ => None |}.

(** The same, with a file that holds a row of fifteen fields. *)
Definition overflow_fs : Pathlib :=
  {| path := str;
     Path := fun s => s;
     path_str := fun p => p;
     path_exists := fun p => str_eqb p (u "genemap2.txt") || str_eqb p (u ".");
     path_is_file := fun p => str_eqb p (u "genemap2.txt");
     path_is_dir := fun p => str_eqb p (u ".");
     path_suffix :=
       fun p => if str_eqb p (u "genemap2.txt") then u ".txt" else [];
     path_div := fun p name => p ++ u "/" ++ name;
     read_lines := fun _ => ReadLines overflowing_lines;
     dump := fun _ _ => None |}.


Definition row_leading_tab : str := TAB :: row_one_phenotype.

Definition leading_tab_lines : list str :=
  [row_leading_tab; row_one_phenotype].

(** * Properties *)

(** ** Rows *)

Lemma blank_one_field (line : str) :
  is_blank line = true -> length (fields_of line) = 1.
Proof.
  unfold is_blank, fields_of. destruct (strip line); [reflexivity | discriminate].
Qed.

Ltac fourteen fields H :=
  do 14 (destruct fields as [| ? fields]; [discriminate H |]);
  destruct fields; [clear H | discriminate H].

(** What [process_line] does with a line of exactly fourteen fields. *)
Lemma process_line_fourteen (line : str) :
  is_comment line = false ->
  length (fields_of line) = 14 ->
  process_line line =
    if is_empty (field 12 line) then Ok None
    else Ok (Some {|
      chromosome := field 0 line;
      genomic_position_start := field 1 line;
      genomic_position_end := field 2 line;
      cyto_location := field 3 line;
      computed_cyto_location := field 4 line;
      mim_number := field 5 line;
      gene_symbols := field 6 line;
      gene_name := field 7 line;
      approved_gene_symbol := field 8 line;
      entrez_gene_id := field 9 line;
      ensembl_gene_id := field 10 line;
      comments := field 11 line;
      mouse := field 13 line;
      phenotypes := phenotype_loop (split (field 12 line) [SEMICOLON]) |}).
Proof.
  intros Hc Hlen.
  assert (Hb : is_blank line = false).
  { destruct (is_blank line) eqn:E; [| reflexivity].
    apply blank_one_field in E. rewrite Hlen in E. discriminate. }
  unfold process_line, field.
  unfold is_comment in Hc. unfold is_blank in Hb. rewrite Hc, Hb. simpl orb. cbv iota.
  unfold fields_of in *. cbv zeta.
  remember (split (strip line) [TAB]) as fields eqn:Ef. clear Ef.
  fourteen fields Hlen. reflexivity.
Qed.

Lemma process_line_overflow (line : str) :
  is_comment line = false ->
  14 < length (fields_of line) ->
  process_line line = Raise (column_error line).
Proof.
  intros Hc Hlen.
  assert (Hb : is_blank line = false).
  { destruct (is_blank line) eqn:E; [| reflexivity].
    apply blank_one_field in E. rewrite E in Hlen. lia. }
  unfold process_line. unfold is_comment in Hc. unfold is_blank in Hb.
  rewrite Hc, Hb. simpl orb. cbv iota. cbv zeta.
  unfold fields_of in Hlen.
  remember (split (strip line) [TAB]) as fields eqn:Ef. clear Ef.
  destruct (length fields <? 14) eqn:E; [apply Nat.ltb_lt in E; lia |].
  do 15 (destruct fields as [| ? fields]; [simpl in Hlen; lia |]).
  reflexivity.
Qed.

Lemma process_line_short (line : str) :
  length (fields_of line) < 14 -> process_line line = Ok None.
Proof.
  intros Hlen. unfold process_line.
  destruct (startswith line [HASH] || is_empty (strip line)); [reflexivity |].
  cbv zeta. unfold fields_of in Hlen.
  apply Nat.ltb_lt in Hlen. rewrite Hlen. reflexivity.
Qed.

(** A raised exception always comes from a line with more than fourteen
    fields and carries that line. *)
Lemma process_line_raise (line : str) (e : exn) :
  process_line line = Raise e ->
  is_comment line = false /\ 14 < length (fields_of line) /\
  e = column_error line.
Proof.
  intros H.
  destruct (is_comment line) eqn:Hc.
  { unfold process_line in H. unfold is_comment in Hc. rewrite Hc in H.
    discriminate. }
  destruct (Nat.lt_trichotomy (length (fields_of line)) 14) as [Hl | [Hl | Hl]].
  - rewrite (process_line_short _ Hl) in H. discriminate.
  - rewrite (process_line_fourteen _ Hc Hl) in H.
    destruct (is_empty (field 12 line)); discriminate.
  - rewrite (process_line_overflow _ Hc Hl) in H. inversion H. auto.
Qed.

(** *** The phenotype field *)

(** C1, as the specification states it, fails: a row of fourteen fields
    whose phenotype field holds one space is empty after trimming, and yet
    [process_line] returns a record for it (with no phenotypes).  The field
    is tested as it stands, it is never trimmed. *)
Lemma blank_phenotype_field_gives_record :
  is_comment row_blank_phenotype = false /\
  length (fields_of row_blank_phenotype) = 14 /\
  strip (field 12 row_blank_phenotype) = [] /\
  match process_line row_blank_phenotype with
  | Ok (Some record) => phenotypes record = []
  | _ => False
  end.
Proof. vm_compute. repeat split. Qed.

(** A data line of fourteen fields with a non-empty phenotype field gives
    a record, whose phenotypes come from the field at position 12. *)
Lemma record_of_fourteen_fields (line : str) :
  is_comment line = false ->
  length (fields_of line) = 14 ->
  field 12 line <> [] ->
  exists record,
    process_line line = Ok (Some record) /\
    phenotypes record = phenotype_loop (split (field 12 line) [SEMICOLON]).
Proof.
  intros Hc Hlen Hne. rewrite (process_line_fourteen _ Hc Hlen).
  destruct (is_empty (field 12 line)) eqn:E.
  { destruct (field 12 line); [contradiction | discriminate]. }
  eexists. split; reflexivity.
Qed.

(** *** Positional binding *)

(** C2, as the specification states it, fails: the field at position 12 is
    the phenotype field and the field at position 13 is bound to [mouse],
    not the other way round. *)
Lemma mouse_is_the_last_field :
  is_comment row_one_phenotype = false /\
  length (fields_of row_one_phenotype) = 14 /\
  match process_line row_one_phenotype with
  | Ok (Some record) =>
      mouse record = field 13 row_one_phenotype /\
      mouse record <> field 12 row_one_phenotype /\
      phenotypes record =
        phenotype_loop (split (field 12 row_one_phenotype) [SEMICOLON]) /\
      phenotypes record <>
        phenotype_loop (split (field 13 row_one_phenotype) [SEMICOLON])
  | _ => False
  end.
Proof.
  vm_compute. repeat split; discriminate.
Qed.

(** C2, amended: for a data line of exactly fourteen fields (with a
    non-empty phenotype field, so that there is a record), the fields are
    bound in file order: positions 0 to 11 to [chromosome] ... [comments],
    position 12 is the phenotype field handed to the annotation loop, and
    position 13 is bound to [mouse]. *)
Theorem fields_bound_in_file_order (line : str) :
  is_comment line = false ->
  length (fields_of line) = 14 ->
  field 12 line <> [] ->
  exists record,
    process_line line = Ok (Some record) /\
    chromosome record = field 0 line /\
    genomic_position_start record = field 1 line /\
    genomic_position_end record = field 2 line /\
    cyto_location record = field 3 line /\
    computed_cyto_location record = field 4 line /\
    mim_number record = field 5 line /\
    gene_symbols record = field 6 line /\
    gene_name record = field 7 line /\
    approved_gene_symbol record = field 8 line /\
    entrez_gene_id record = field 9 line /\
    ensembl_gene_id record = field 10 line /\
    comments record = field 11 line /\
    phenotypes record =
      phenotype_loop (split (field 12 line) [SEMICOLON]) /\
    mouse record = field 13 line.
Proof.
  intros Hc Hlen Hne. rewrite (process_line_fourteen _ Hc Hlen).
  destruct (is_empty (field 12 line)) eqn:E.
  { destruct (field 12 line); [contradiction | discriminate]. }
  eexists. split; [reflexivity |]. repeat split.
Qed.

Lemma fields_bound_in_file_order_witness :
  exists record,
    process_line row_one_phenotype = Ok (Some record) /\
    phenotypes record =
      [{| Phenotype.name := u "Some syndrome";
          Phenotype.mim_number := None;
          Phenotype.mapping_key := u "1";
          Phenotype.inheritance := [] |}] /\
    mouse record = u "Gene1 (MGI:1)".
Proof.
  destruct (fields_bound_in_file_order row_one_phenotype eq_refl eq_refl)
    as [record H].
  - vm_compute. discriminate.
  - exists record.
    destruct H as (H0 & _ & _ & _ & _ & _ & _ & _ & _ & _ & _ & _ & _ & Hp & Hm).
    split; [exact H0 |]. split; [rewrite Hp | rewrite Hm]; reflexivity.
Defined.

(** *** Skipped lines *)

(** C8: a comment line, a blank line and a line of fewer than fourteen
    fields are skipped: [process_line] returns [None] and raises nothing. *)
Theorem comment_blank_short_skipped (line : str) :
  is_comment line = true \/ is_blank line = true \/
  length (fields_of line) < 14 ->
  process_line line = Ok None.
Proof.
  intros [H | [H | H]].
  - unfold process_line. unfold is_comment in H. rewrite H. reflexivity.
  - apply process_line_short. rewrite (blank_one_field _ H). lia.
  - apply process_line_short, H.
Qed.

Lemma comment_blank_short_skipped_witness :
  length (fields_of row_thirteen_fields) = 13 /\
  process_line row_thirteen_fields = Ok None /\
  process_line comment_line = Ok None /\
  process_line blank_line = Ok None.
Proof.
  split; [reflexivity |]. split; [| split].
  - apply (comment_blank_short_skipped row_thirteen_fields).
    right; right. vm_compute. lia.
  - apply (comment_blank_short_skipped comment_line). left. reflexivity.
  - apply (comment_blank_short_skipped blank_line). right; left. reflexivity.
Defined.

(** ** Phenotype entries *)

(** C5: the entry "Retinitis pigmentosa, 268000 (3), Autosomal recessive"
    matches Grammar A and gives the name, the MIM number 268000, the
    mapping key 3 and the one inheritance mode. *)
Theorem retinitis_pigmentosa_entry :
  matches grammar_A
    (strip (u "Retinitis pigmentosa, 268000 (3), Autosomal recessive"))
  = true /\
  phenotype_entry (u "Retinitis pigmentosa, 268000 (3), Autosomal recessive")
  = Some {| Phenotype.name := u "Retinitis pigmentosa";
            Phenotype.mim_number := Some (u "268000");
            Phenotype.mapping_key := u "3";
            Phenotype.inheritance := [u "Autosomal recessive"] |}.
Proof. split; vm_compute; reflexivity. Qed.

(** ** The pool *)

Section PoolFacts.

Context {A B : Type}.
Variable processes : nat.
Variable func : A -> result B.

Lemma get_tasks_from_concat (size : nat) (xs : list A) :
  forall left cur,
    concat (get_tasks_from size left cur xs) = rev cur ++ xs.
Proof.
  induction xs as [| x xs IH]; intros left cur.
  - destruct cur; simpl; [reflexivity |].
    now rewrite !app_nil_r.
  - destruct left as [| [| l]]; simpl; rewrite IH; simpl;
      now rewrite <- ?app_assoc.
Qed.

(** The batches, put end to end, are the items in their order. *)
Lemma get_tasks_concat (xs : list A) (size : nat) :
  concat (get_tasks xs size) = xs.
Proof. unfold get_tasks. now rewrite get_tasks_from_concat. Qed.

Lemma mapstar_ok (xs : list A) :
  forall ys, mapstar func xs = Ok ys -> map func xs = map Ok ys.
Proof.
  induction xs as [| x xs IH]; simpl; intros ys H.
  - inversion H. reflexivity.
  - destruct (func x) as [y | e]; [| discriminate].
    destruct (mapstar func xs) as [zs | e]; [| discriminate].
    inversion H; subst. simpl. now rewrite (IH zs).
Qed.

Lemma mapstar_raise (xs : list A) (e : exn) :
  mapstar func xs = Raise e -> exists x, In x xs /\ func x = Raise e.
Proof.
  induction xs as [| x xs IH]; simpl; intros H; [discriminate |].
  destruct (func x) as [y | e'] eqn:E.
  - destruct (mapstar func xs) as [zs | e'']; [discriminate |].
    inversion H; subst. destruct IH as (x' & Hin & Hx); [reflexivity |].
    exists x'. auto.
  - inversion H; subst. exists x. auto.
Qed.

Lemma batches_ok (chunks : list (list A)) :
  forall yss,
    map (mapstar func) chunks = map Ok yss ->
    map func (concat chunks) = map Ok (concat yss).
Proof.
  induction chunks as [| c chunks IH]; intros [| ys yss] H;
    try discriminate; [reflexivity |].
  simpl in H. inversion H as [[H1 H2]].
  simpl. rewrite !map_app, (IH _ H2), (mapstar_ok _ _ H1). reflexivity.
Qed.

Lemma batches_raise (chunks : list (list A)) (e : exn) :
  In (Raise e) (map (mapstar func) chunks) ->
  exists x, In x (concat chunks) /\ func x = Raise e.
Proof.
  intros H. apply in_map_iff in H. destruct H as (c & Hc & Hin).
  destruct (mapstar_raise _ _ Hc) as (x & Hx & Hf).
  exists x. split; [| exact Hf].
  apply in_concat. exists c. auto.
Qed.

(** A list that [pool.map] returns holds the results of the items, one
    for one and in their order. *)
Lemma pool_map_ok_inv (xs : list A) (ys : list B) :
  pool_map processes func xs (Ok ys) -> map func xs = map Ok ys.
Proof.
  intros H. inversion H as [yss Hb Hy |]; subst.
  unfold batch_results in Hb. apply batches_ok in Hb.
  now rewrite get_tasks_concat in Hb.
Qed.

(** An exception that [pool.map] raises is the exception of an item. *)
Lemma pool_map_raise_inv (xs : list A) (e : exn) :
  pool_map processes func xs (Raise e) ->
  exists x, In x xs /\ func x = Raise e.
Proof.
  intros H. inversion H as [| e' Hb]; subst.
  unfold batch_results in Hb. apply batches_raise in Hb.
  now rewrite get_tasks_concat in Hb.
Qed.

Lemma collect_ok (rs : list (result (list B))) :
  forall ys, collect rs = Ok ys ->
             exists yss, rs = map Ok yss /\ ys = concat yss.
Proof.
  induction rs as [| [zs | e] rs IH]; simpl; intros ys H.
  - inversion H. exists []. auto.
  - destruct (collect rs) as [ws | e]; [| discriminate].
    inversion H; subst. destruct (IH ws eq_refl) as (yss & -> & ->).
    exists (zs :: yss). auto.
  - discriminate.
Qed.

Lemma collect_raise (rs : list (result (list B))) (e : exn) :
  collect rs = Raise e -> In (Raise e) rs.
Proof.
  induction rs as [| [zs | e'] rs IH]; simpl; intros H.
  - discriminate.
  - destruct (collect rs) as [ws | e'']; [discriminate |].
    inversion H; subst. right. now apply IH.
  - inversion H. now left.
Qed.

(** The in-order schedule is one of the things [pool.map] can do, so
    [pool.map] always has an outcome. *)
Lemma pool_map_in_order_possible (xs : list A) :
  pool_map processes func xs (pool_map_in_order processes func xs).
Proof.
  unfold pool_map_in_order.
  destruct (collect (batch_results processes func xs)) as [ys | e] eqn:E.
  - destruct (collect_ok _ _ E) as (yss & Hb & ->).
    now apply pool_map_returns.
  - apply pool_map_raises. now apply collect_raise.
Qed.

End PoolFacts.

Lemma kept_entries_records (lines : list str) :
  forall parsed_data,
    map process_line lines = map Ok parsed_data ->
    kept_entries parsed_data = records_in_order lines.
Proof.
  induction lines as [| line lines IH]; intros [| entry parsed] H;
    try discriminate; [reflexivity |].
  simpl in H. inversion H as [[H1 H2]]. simpl. rewrite H1.
  destruct entry; now rewrite (IH _ H2).
Qed.

Lemma parse_in_order_possible (processes : nat) (filename : str)
      (file : read_outcome) :
  parse_genemap2 processes filename file
                 (parse_genemap2_in_order processes filename file).
Proof.
  destruct file as [lines | | e | e]; simpl; try constructor.
  pose proof (pool_map_in_order_possible processes process_line lines) as H.
  destruct (pool_map_in_order processes process_line lines);
    now constructor.
Qed.

(** ** Batches *)

(** C3, amended: when a line of the input is not a comment and has more
    than fourteen fields once stripped of its leading and trailing
    whitespace, [parse_genemap2] raises and returns no records at all,
    whatever the other lines hold; the exception is the [ValueError] of
    such a line of this input, and its message ends with that line as it
    was read.  The fields are counted after the strip: blank columns at
    the start or at the end of a line do not count. *)
Theorem overflow_aborts_batch (processes : nat) (filename : str)
        (lines : list str) (line : str) :
  In line lines ->
  is_comment line = false ->
  14 < length (fields_of line) ->
  (exists out, parse_genemap2 processes filename (ReadLines lines) out) /\
  (forall out,
      parse_genemap2 processes filename (ReadLines lines) out ->
      exists bad,
        In bad lines /\ is_comment bad = false /\
        14 < length (fields_of bad) /\
        out = Raise (ValueError
                       (u "Unexpected number of columns in line: " ++ bad))).
Proof.
  intros Hin Hc Hlen. split.
  - eexists. apply parse_in_order_possible.
  - intros out H. inversion H as [| | | ls e Hp | ls parsed Hp]; subst.
    + apply pool_map_raise_inv in Hp. destruct Hp as (bad & Hb & Hr).
      apply process_line_raise in Hr. destruct Hr as (Hbc & Hbl & ->).
      exists bad. auto.
    + apply pool_map_ok_inv in Hp.
      assert (Hr : In (process_line line) (map Ok parsed)).
      { rewrite <- Hp. now apply in_map. }
      rewrite (process_line_overflow _ Hc Hlen) in Hr.
      apply in_map_iff in Hr. destruct Hr as (? & Hr & _). discriminate.
Qed.

Lemma overflow_aborts_batch_witness :
  exists out,
    parse_genemap2 4 (u "genemap2.txt") (ReadLines overflowing_lines) out /\
    exists bad,
      In bad overflowing_lines /\
      is_comment bad = false /\
      14 < length (fields_of bad) /\
      out = Raise (ValueError
                     (u "Unexpected number of columns in line: " ++ bad)).
Proof.
  destruct (overflow_aborts_batch 4 (u "genemap2.txt") overflowing_lines
              row_fifteen_fields) as [[out Hout] Hall].
  - simpl. auto.
  - reflexivity.
  - vm_compute. lia.
  - exists out. split; [exact Hout | exact (Hall out Hout)].
Defined.

(** C4: when no line of the input raises, [parse_genemap2] returns, and
    what it returns is the list of the records of the lines taken one after
    the other, in the order of the lines, the lines without a record
    (comments, blank lines, skipped rows) left out.  No schedule of the
    workers gives anything else. *)
Theorem output_keeps_line_order (processes : nat) (filename : str)
        (lines : list str) :
  (forall line e, In line lines -> process_line line <> Raise e) ->
  forall out,
    parse_genemap2 processes filename (ReadLines lines) out <->
    out = Ok (records_in_order lines).
Proof.
  intros Hok.
  assert (Hinv : forall out,
             parse_genemap2 processes filename (ReadLines lines) out ->
             out = Ok (records_in_order lines)).
  { intros out H. inversion H as [| | | ls e Hp | ls parsed Hp]; subst.
    - apply pool_map_raise_inv in Hp. destruct Hp as (bad & Hb & Hr).
      now elim (Hok bad e Hb).
    - apply pool_map_ok_inv in Hp. f_equal.
      now apply kept_entries_records. }
  intros out. split; [apply Hinv |].
  intros ->.
  pose proof (parse_in_order_possible processes filename (ReadLines lines))
    as H.
  now rewrite <- (Hinv _ H).
Qed.

Lemma output_keeps_line_order_witness :
  parse_genemap2 4 (u "genemap2.txt") (ReadLines sample_lines)
                 (Ok (records_in_order sample_lines)).
Proof.
  apply (output_keeps_line_order 4 (u "genemap2.txt") sample_lines);
    [| reflexivity].
  intros line e H. simpl in H.
  repeat (destruct H as [<- | H]; [vm_compute; discriminate |]).
  contradiction.
Defined.

(** ** Entries that match neither grammar *)

Lemma matches_false (pattern : re) (s : str) :
  matches pattern s = false -> re_match pattern s = None.
Proof. unfold matches. destruct (re_match pattern s); congruence. Qed.

Lemma phenotype_entry_unmatched (entry : str) :
  matches grammar_A (strip entry) = false ->
  matches grammar_B (strip entry) = false ->
  phenotype_entry entry = None.
Proof.
  intros HA HB. unfold phenotype_entry.
  now rewrite (matches_false _ _ HA), (matches_false _ _ HB).
Qed.

Lemma phenotype_loop_unmatched (entries : list str) :
  (forall entry, In entry entries ->
                 matches grammar_A (strip entry) = false /\
                 matches grammar_B (strip entry) = false) ->
  phenotype_loop entries = [].
Proof.
  induction entries as [| entry entries IH]; intros H; [reflexivity |].
  simpl. destruct (H entry (or_introl eq_refl)) as [HA HB].
  rewrite (phenotype_entry_unmatched _ HA HB).
  apply IH. intros e He. apply H. now right.
Qed.

(** C7: an entry that matches neither grammar adds nothing to the
    phenotypes and raises nothing, the entries around it are treated as if
    it were not there; and a row of fourteen fields whose non-empty
    phenotype field holds only such entries still gives a record, with an
    empty [phenotypes].  "malformed entry without parens" is such an
    entry. *)
Theorem unmatched_entries_dropped :
  (forall before entry after,
      matches grammar_A (strip entry) = false ->
      matches grammar_B (strip entry) = false ->
      phenotype_entry entry = None /\
      phenotype_loop (before ++ entry :: after) =
        phenotype_loop before ++ phenotype_loop after) /\
  (forall line,
      is_comment line = false ->
      length (fields_of line) = 14 ->
      field 12 line <> [] ->
      (forall entry, In entry (split (field 12 line) [SEMICOLON]) ->
                     matches grammar_A (strip entry) = false /\
                     matches grammar_B (strip entry) = false) ->
      exists record,
        process_line line = Ok (Some record) /\ phenotypes record = []) /\
  matches grammar_A (strip (u "malformed entry without parens")) = false /\
  matches grammar_B (strip (u "malformed entry without parens")) = false.
Proof.
  split; [| split; [| split; reflexivity]].
  - intros before entry after HA HB.
    pose proof (phenotype_entry_unmatched _ HA HB) as He.
    split; [exact He |].
    induction before as [| b before IH]; simpl.
    + now rewrite He.
    + destruct (phenotype_entry b); simpl; now rewrite IH.
  - intros line Hc Hlen Hne Hall.
    destruct (record_of_fourteen_fields line Hc Hlen Hne) as (r & Hr & Hp).
    exists r. split; [exact Hr |].
    rewrite Hp. now apply phenotype_loop_unmatched.
Qed.

Lemma unmatched_entries_dropped_witness :
  exists record,
    process_line row_malformed_phenotype = Ok (Some record) /\
    phenotypes record = [].
Proof.
  apply (proj1 (proj2 unmatched_entries_dropped) row_malformed_phenotype).
  - reflexivity.
  - reflexivity.
  - vm_compute. discriminate.
  - intros entry H. vm_compute in H.
    destruct H as [<- | []]. split; reflexivity.
Defined.

(** ** A row that ends with a tab *)

Lemma tabs_app (a b : str) : tabs (a ++ b) = tabs a + tabs b.
Proof. unfold tabs. now rewrite filter_app, length_app. Qed.

Lemma tabs_rev (s : str) : tabs (rev s) = tabs s.
Proof.
  induction s as [| c s IH]; [reflexivity |].
  simpl rev. rewrite tabs_app, IH. unfold tabs. simpl.
  destruct (char_eqb c TAB); simpl; lia.
Qed.

Lemma tabs_lstrip (s : str) : tabs (lstrip s) <= tabs s.
Proof.
  induction s as [| c s IH]; [apply Nat.le_refl |].
  simpl. destruct (is_space c); [| apply Nat.le_refl].
  unfold tabs in *. simpl. destruct (char_eqb c TAB); simpl; lia.
Qed.


(** Splitting on a single character gives one field more than there are
    occurrences of the character. *)
Lemma split_from_char_length (c : char) (s : str) :
  forall cur,
    length (split_from [c] 0 cur s) =
    S (length (filter (fun x => char_eqb x c) s)).
Proof.
  induction s as [| x s IH]; intros cur; [reflexivity |].
  simpl. destruct (char_eqb x c); simpl; now rewrite IH.
Qed.

Lemma fields_of_length (line : str) :
  length (fields_of line) = S (tabs (strip line)).
Proof. apply split_from_char_length. Qed.

Lemma lstrip_spaces (w s : str) :
  forallb is_space w = true -> lstrip (w ++ s) = lstrip s.
Proof.
  induction w as [| c w IH]; simpl; intros H; [reflexivity |].
  apply andb_true_iff in H. destruct H as [Hc Hw]. rewrite Hc. now apply IH.
Qed.

Lemma lstrip_app (a b : str) :
  lstrip (a ++ b) =
  match lstrip a with
  | [] => lstrip b
  | _ :: _ => lstrip a ++ b
  end.
Proof.
  induction a as [| c a IH]; simpl.
  - destruct (lstrip b); reflexivity.
  - destruct (is_space c); [exact IH | reflexivity].
Qed.

Lemma forallb_rev (A : Type) (f : A -> bool) (l : list A) :
  forallb f (rev l) = forallb f l.
Proof.
  induction l as [| x l IH]; [reflexivity |].
  simpl. rewrite forallb_app, IH. simpl. rewrite andb_true_r.
  apply andb_comm.
Qed.

Lemma rstrip_spaces (s w : str) :
  forallb is_space w = true -> rstrip (s ++ w) = rstrip s.
Proof.
  intros H. unfold rstrip. rewrite rev_app_distr, lstrip_spaces;
    [reflexivity | now rewrite forallb_rev].
Qed.

(** Whitespace at the end of a line does not survive [strip]. *)
Lemma strip_spaces (s w : str) :
  forallb is_space w = true -> strip (s ++ w) = strip s.
Proof.
  intros H. unfold strip. rewrite lstrip_app.
  destruct (lstrip s) as [| c r] eqn:E.
  - rewrite <- (app_nil_r w), lstrip_spaces by exact H. reflexivity.
  - now apply rstrip_spaces.
Qed.




(** ** The matcher against the reading *)

Lemma take_drop_line (t : str) : t = take_line t ++ drop_line t.
Proof.
  induction t as [| c t IH]; [reflexivity |].
  simpl. destruct (not_newline c); simpl; congruence.
Qed.

Lemma firstn_take_line (pre t : str) :
  firstn (length (pre ++ t) - length (drop_line t)) (pre ++ t)
  = pre ++ take_line t.
Proof.
  pose proof (take_drop_line t) as E.
  remember (take_line t) as a eqn:Ea. remember (drop_line t) as b eqn:Eb.
  rewrite E, app_assoc, length_app.
  replace (length (pre ++ a) + length b - length b)
    with (length (pre ++ a) + 0) by lia.
  now rewrite firstn_app_2, app_nil_r.
Qed.

Lemma at_end_not_newline (c : char) (t : str) :
  not_newline c = true -> at_end (c :: t) = false.
Proof.
  unfold not_newline. intros H. simpl.
  destruct t; [| reflexivity].
  now destruct (char_eqb c NEWLINE).
Qed.

Lemma first_some_app {X Y : Type} (f : X -> option Y) (l1 l2 : list X) :
  first_some f (l1 ++ l2) =
  match first_some f l1 with
  | Some y => Some y
  | None => first_some f l2
  end.
Proof.
  induction l1 as [| x l1 IH]; simpl; [reflexivity |].
  destruct (f x); [reflexivity | exact IH].
Qed.

Lemma first_some_map {X Y Z : Type} (f : X -> option Y) (h : Z -> X)
      (l : list Z) :
  first_some f (map h l) = first_some (fun z => f (h z)) l.
Proof.
  induction l as [| z l IH]; simpl; [reflexivity |].
  destruct (f (h z)); [reflexivity | exact IH].
Qed.

Lemma first_some_none {X Y : Type} (f : X -> option Y) (l : list X) :
  (forall x, In x l -> f x = None) -> first_some f l = None.
Proof.
  induction l as [| x l IH]; simpl; intros H; [reflexivity |].
  rewrite (H x (or_introl eq_refl)). apply IH. intros y Hy. apply H. now right.
Qed.

Section MatcherFacts.

Variable subject : str.

(** A greedy run of "any character" in front of a continuation that needs
    the end of the subject stops at the first newline: no shorter run can
    do. *)
Lemma star_any_to_end (k : cont) :
  (forall b g, at_end b = false -> k b g = None) ->
  forall t g, star Any k t g = k (drop_line t) g.
Proof.
  intros Hk. induction t as [| c t IH]; intros g; [reflexivity |].
  simpl. unfold not_newline.
  destruct (negb (char_eqb c NEWLINE)) eqn:E; [| reflexivity].
  rewrite IH. destruct (k (drop_line t) g) eqn:Ek; [reflexivity |].
  apply Hk. now apply at_end_not_newline.
Qed.

(** A greedy run of "any character" tries the cuts of the input, the
    longest front first, and keeps to fronts without a newline. *)
Lemma star_any_cuts (k : cont) (g : groups) :
  forall s,
    star Any k s g =
    first_some (fun cut => if forallb not_newline (fst cut)
                           then k (snd cut) g else None)
               (cuts s).
Proof.
  induction s as [| c s IH]; simpl.
  - now destruct (k [] g).
  - fold (not_newline c).
    rewrite first_some_app, first_some_map. simpl.
    destruct (not_newline c) eqn:E; simpl.
    + rewrite <- IH. destruct (star Any k s g); [reflexivity |].
      now destruct (k (c :: s) g).
    + rewrite first_some_none by reflexivity.
      now destruct (k (c :: s) g).
Qed.

End MatcherFacts.

Lemma capture_all (s : str) : capture s s = [].
Proof. unfold capture. now rewrite Nat.sub_diag. Qed.

Lemma capture_take_line (t : str) : capture t (drop_line t) = take_line t.
Proof. apply (firstn_take_line [] t). Qed.

Lemma tail_run (subject : str) (i j : nat) (s : str) (g : groups) :
  run subject (tail_pattern i j) accept s g =
  match inheritance_text s with
  | Some None => Some (set_group i [] g)
  | Some (Some t) =>
      Some (set_group i (capture s (drop_line (skipn 2 s))) (set_group j t g))
  | None => None
  end.
Proof.
  unfold tail_pattern, inheritance_text. simpl.
  destruct (at_end s) eqn:E.
  - unfold accept. now rewrite capture_all.
  - destruct s as [| c1 [| c2 t]]; [discriminate E | now destruct (char_eqb c1 COMMA) |].
    simpl. destruct (char_eqb c1 COMMA); [| reflexivity]. 
    destruct (char_eqb c2 SPACE); [| reflexivity]. simpl. 
    rewrite star_any_to_end.
    + rewrite capture_take_line. now destruct (at_end (drop_line t)).
    + intros b g' Hb. now rewrite Hb.
Qed.

Lemma capture_app (a b : str) : capture (a ++ b) b = a.
Proof.
  unfold capture. rewrite length_app.
  replace (length a + length b - length b) with (length a + 0) by lia.
  now rewrite firstn_app_2, app_nil_r.
Qed.

Lemma grammar_A_parts : grammar_A = (Bol ;; Group 1 (Star Any) ;; suffix_A)%re.
Proof. reflexivity. Qed.

Lemma grammar_B_parts : grammar_B = (Bol ;; Group 1 (Star Any) ;; suffix_B)%re.
Proof. reflexivity. Qed.

Ltac split_ifs :=
  repeat match goal with
         | |- context [if ?x then _ else _] => destruct x
         end.

Lemma mim_key_run (subject : str) (r : re) (b : str) (g : groups) :
  run subject
      (Atom (Lit COMMA) ;; Atom Space ;; Group 2 (Rep 6 Digit) ;; Atom Space ;;
       Atom (Lit LPAREN) ;; Group 3 (Atom Digit) ;; Atom (Lit RPAREN) ;; r)
      accept b g =
  match mim_key_at b with
  | Some (mim, key, rest) =>
      run subject r accept rest (set_group 3 key (set_group 2 mim g))
  | None => None
  end.
Proof.
  destruct b as [| c b]; [reflexivity |].
  destruct b as [| w1 b]; [simpl; split_ifs; reflexivity |].
  destruct b as [| d1 b]; [simpl; split_ifs; reflexivity |].
  destruct b as [| d2 b]; [simpl; split_ifs; reflexivity |].
  destruct b as [| d3 b]; [simpl; split_ifs; reflexivity |].
  destruct b as [| d4 b]; [simpl; split_ifs; reflexivity |].
  destruct b as [| d5 b]; [simpl; split_ifs; reflexivity |].
  destruct b as [| d6 b]; [simpl; split_ifs; reflexivity |].
  destruct b as [| w2 b]; [simpl; split_ifs; reflexivity |].
  destruct b as [| lp b]; [simpl; split_ifs; reflexivity |].
  destruct b as [| k b]; [simpl; split_ifs; reflexivity |].
  destruct b as [| rp b]; [simpl; split_ifs; reflexivity |].
  simpl run. simpl mim_key_at.
  change (capture (k :: rp :: b) (rp :: b))
    with (capture ([k] ++ rp :: b) (rp :: b)).
  change (capture (d1 :: d2 :: d3 :: d4 :: d5 :: d6 :: w2 :: lp :: k :: rp :: b)
                  (w2 :: lp :: k :: rp :: b))
    with (capture ([d1; d2; d3; d4; d5; d6] ++ w2 :: lp :: k :: rp :: b)
                  (w2 :: lp :: k :: rp :: b)).
  rewrite !capture_app.
  destruct (char_eqb c COMMA), (is_space w1), (is_digit d1), (is_digit d2),
    (is_digit d3), (is_digit d4), (is_digit d5), (is_digit d6), (is_space w2),
    (char_eqb lp LPAREN), (is_digit k), (char_eqb rp RPAREN); reflexivity.
Qed.

Lemma key_run (subject : str) (r : re) (b : str) (g : groups) :
  run subject
      (Atom (Lit LPAREN) ;; Group 2 (Atom Digit) ;; Atom (Lit RPAREN) ;; r)
      accept b g =
  match key_at b with
  | Some (key, rest) => run subject r accept rest (set_group 2 key g)
  | None => None
  end.
Proof.
  destruct b as [| lp b]; [reflexivity |].
  destruct b as [| k b]; [simpl; split_ifs; reflexivity |].
  destruct b as [| rp b]; [simpl; split_ifs; reflexivity |].
  simpl run. simpl key_at.
  change (capture (k :: rp :: b) (rp :: b))
    with (capture ([k] ++ rp :: b) (rp :: b)).
  rewrite !capture_app.
  destruct (char_eqb lp LPAREN), (is_digit k), (char_eqb rp RPAREN);
    reflexivity.
Qed.

Lemma suffix_A_run (subject b : str) (g : groups) :
  option_map fields_A (run subject suffix_A accept b g) =
  match mim_key_at b with
  | Some (mim, key, rest) =>
      match inheritance_text rest with
      | Some inh =>
          Some (g 1, Some mim, Some key,
                match inh with Some t => Some t | None => g 5 end)
      | None => None
      end
  | None => None
  end.
Proof.
  unfold suffix_A. rewrite mim_key_run.
  destruct (mim_key_at b) as [[[mim key] rest] |]; [| reflexivity].
  rewrite tail_run.
  destruct (inheritance_text rest) as [[t |] |]; reflexivity.
Qed.

Lemma suffix_B_run (subject b : str) (g : groups) :
  option_map fields_B (run subject suffix_B accept b g) =
  match key_at b with
  | Some (key, rest) =>
      match inheritance_text rest with
      | Some inh =>
          Some (g 1, Some key,
                match inh with Some t => Some t | None => g 4 end)
      | None => None
      end
  | None => None
  end.
Proof.
  unfold suffix_B. rewrite key_run.
  destruct (key_at b) as [[key rest] |]; [| reflexivity].
  rewrite tail_run.
  destruct (inheritance_text rest) as [[t |] |]; reflexivity.
Qed.

Lemma cuts_app (s a b : str) : In (a, b) (cuts s) <-> s = a ++ b.
Proof.
  revert a b. induction s as [| c s IH]; intros a b; simpl.
  - split.
    + intros [H | []]. inversion H. reflexivity.
    + intros H. symmetry in H. apply app_eq_nil in H. destruct H as [-> ->].
      now left.
  - rewrite in_app_iff, in_map_iff. simpl. split.
    + intros [((a', b') & H & Hin) | [H | []]].
      * inversion H; subst. apply IH in Hin. simpl. now rewrite Hin.
      * inversion H. reflexivity.
    + intros H. destruct a as [| x a].
      * right. left. simpl in H. now rewrite H.
      * left. simpl in H. inversion H; subst. exists (a, b). split; [reflexivity |].
        now apply IH.
Qed.

Lemma first_some_ext {X Y : Type} (f h : X -> option Y) (l : list X) :
  (forall x, In x l -> f x = h x) -> first_some f l = first_some h l.
Proof.
  induction l as [| x l IH]; simpl; intros H; [reflexivity |].
  rewrite (H x (or_introl eq_refl)), IH; [reflexivity |].
  intros y Hy. apply H. now right.
Qed.

Lemma first_some_option_map {X Y Z : Type} (f : X -> option Y) (h : Y -> Z)
      (l : list X) :
  option_map h (first_some f l) = first_some (fun x => option_map h (f x)) l.
Proof.
  induction l as [| x l IH]; simpl; [reflexivity |].
  destruct (f x); simpl; [reflexivity | exact IH].
Qed.

Lemma front_match (suffix : re) (s : str) :
  re_match (Bol ;; Group 1 (Star Any) ;; suffix) s =
  first_some (fun cut => if forallb not_newline (fst cut)
                         then run s suffix accept (snd cut)
                                  (set_group 1 (capture s (snd cut)) no_groups)
                         else None)
             (cuts s).
Proof.
  unfold re_match. simpl run. rewrite Nat.eqb_refl.
  apply (star_any_cuts
           (fun s' g' => run s suffix accept s' (set_group 1 (capture s s') g'))).
Qed.

(** Grammar A matches exactly when some cut of the text is a complete
    entry, and its groups are those of the right-most such cut. *)
Lemma grammar_A_rightmost (s : str) :
  option_map fields_A (re_match grammar_A s) = option_map parts_A (rightmost_A s).
Proof.
  rewrite grammar_A_parts, front_match. unfold rightmost_A.
  rewrite !first_some_option_map. apply first_some_ext.
  intros [a b] Hin. apply cuts_app in Hin. unfold occurrence_A. simpl fst. simpl snd.
  destruct (forallb not_newline a); [| reflexivity].
  rewrite suffix_A_run. rewrite Hin, capture_app.
  destruct (mim_key_at b) as [[[mim key] rest] |]; [| reflexivity].
  destruct (inheritance_text rest) as [[t |] |]; reflexivity.
Qed.

Lemma grammar_B_rightmost (s : str) :
  option_map fields_B (re_match grammar_B s) = option_map parts_B (rightmost_B s).
Proof.
  rewrite grammar_B_parts, front_match. unfold rightmost_B.
  rewrite !first_some_option_map. apply first_some_ext.
  intros [a b] Hin. apply cuts_app in Hin. unfold occurrence_B. simpl fst. simpl snd.
  destruct (forallb not_newline a); [| reflexivity].
  rewrite suffix_B_run. rewrite Hin, capture_app.
  destruct (key_at b) as [[key rest] |]; [| reflexivity].
  destruct (inheritance_text rest) as [[t |] |]; reflexivity.
Qed.

Lemma inheritances_of_modes (g : groups) (i : nat) :
  inheritances_of g i = modes (g i).
Proof.
  unfold inheritances_of, modes, group.
  destruct (g i) as [[| c t] |]; reflexivity.
Qed.

(** [phenotype_entry] in terms of the reading: the right-most complete
    occurrence of Grammar A if there is one, else that of Grammar B. *)
Lemma phenotype_entry_rightmost (entry : str) :
  phenotype_entry entry =
  match rightmost_A (strip entry) with
  | Some (name, mim, key, inh) =>
      Some {| Phenotype.name := name;
              Phenotype.mim_number := Some mim;
              Phenotype.mapping_key := key;
              Phenotype.inheritance := modes inh |}
  | None =>
      match rightmost_B (strip entry) with
      | Some (name, key, inh) =>
          Some {| Phenotype.name := name;
                  Phenotype.mim_number := None;
                  Phenotype.mapping_key := key;
                  Phenotype.inheritance := modes inh |}
      | None => None
      end
  end.
Proof.
  unfold phenotype_entry.
  pose proof (grammar_A_rightmost (strip entry)) as HA.
  pose proof (grammar_B_rightmost (strip entry)) as HB.
  destruct (re_match grammar_A (strip entry)) as [g |];
    destruct (rightmost_A (strip entry)) as [[[[n m] k] i] |];
    try discriminate HA.
  - inversion HA as [[H1 H2 H3 H5]]. rewrite inheritances_of_modes.
    unfold group. now rewrite H1, H2, H3, H5.
  - destruct (re_match grammar_B (strip entry)) as [g |];
      destruct (rightmost_B (strip entry)) as [[[n k] i] |];
      try discriminate HB; [| reflexivity].
    inversion HB as [[H1 H2 H4]]. rewrite inheritances_of_modes.
    unfold group. now rewrite H1, H2, H4.
Qed.

(** The first hit among the cuts of a text is the hit with the longest
    front. *)
Lemma first_some_cuts {Y : Type} (s : str) :
  forall (f : str * str -> option Y) (a b : str) (v : Y),
    s = a ++ b ->
    f (a, b) = Some v ->
    (forall a' b', s = a' ++ b' -> length a < length a' -> f (a', b') = None) ->
    first_some f (cuts s) = Some v.
Proof.
  induction s as [| c s IH]; intros f a b v Hs Hf Hmax.
  - symmetry in Hs. apply app_eq_nil in Hs. destruct Hs as [-> ->].
    simpl. now rewrite Hf.
  - simpl. rewrite first_some_app, first_some_map. cbv beta.
    destruct a as [| x a].
    + simpl in Hs. subst b.
      rewrite first_some_none.
      * simpl. now rewrite Hf.
      * intros [a' b'] Hin. apply cuts_app in Hin. simpl.
        apply Hmax; [simpl; now rewrite Hin | simpl; lia].
    + simpl in Hs. injection Hs as Hc Hs. subst x.
      rewrite (IH (fun z => f (c :: fst z, snd z)) a b v Hs Hf);
        [reflexivity |].
      intros a' b' Hs' Hlen. simpl. apply Hmax; [simpl; now rewrite Hs' |].
      simpl. lia.
Qed.

Lemma first_some_cuts_inv {Y : Type} (s : str) :
  forall (f : str * str -> option Y) (v : Y),
    first_some f (cuts s) = Some v ->
    exists a b,
      s = a ++ b /\ f (a, b) = Some v /\
      forall a' b', s = a' ++ b' -> length a < length a' -> f (a', b') = None.
Proof.
  induction s as [| c s IH]; intros f v H.
  - simpl in H. exists [], []. split; [reflexivity |]. split.
    + destruct (f ([], [])); [exact H | discriminate].
    + intros a' b' Hs Hlen. symmetry in Hs. apply app_eq_nil in Hs.
      destruct Hs as [-> _]. simpl in Hlen. lia.
  - simpl in H. rewrite first_some_app, first_some_map in H. cbv beta in H.
    destruct (first_some (fun z => f (c :: fst z, snd z)) (cuts s)) eqn:E.
    + inversion H; subst. apply IH in E. destruct E as (a & b & -> & Hf & Hmax).
      exists (c :: a), b. repeat split; [exact Hf |].
      intros a' b' Hs Hlen. destruct a' as [| x a']; [simpl in Hlen; lia |].
      simpl in Hs. injection Hs as Hc Hs. subst x.
      apply (Hmax a' b'); [exact Hs | simpl in Hlen; lia].
    + simpl in H. exists [], (c :: s). split; [reflexivity |]. split.
      * destruct (f ([], c :: s)); [exact H | discriminate].
      * intros a' b' Hs Hlen. destruct a' as [| x a']; [simpl in Hlen; lia |].
        simpl in Hs. injection Hs as Hc Hs. subst x.
        assert (Hnone : forall l z,
                   first_some (fun z => f (c :: fst z, snd z)) l = None ->
                   In z l -> f (c :: fst z, snd z) = None).
        { induction l as [| y l IHl]; intros z El Hz; [contradiction |].
          simpl in El. destruct (f (c :: fst y, snd y)) eqn:Ey; [discriminate |].
          destruct Hz as [<- | Hz]; [exact Ey | now apply IHl]. }
        apply (Hnone _ (a', b') E). now apply cuts_app.
Qed.

(** What [rightmost_A] is: a cut of the text that is a complete entry,
    such that no cut with a longer front is one. *)
Lemma rightmost_A_spec (seg name mim key : str) (inh : option str) :
  rightmost_A seg = Some (name, mim, key, inh) <->
  exists rest,
    seg = name ++ rest /\
    occurrence_A (name, rest) = Some (name, mim, key, inh) /\
    forall name' rest',
      seg = name' ++ rest' -> length name < length name' ->
      occurrence_A (name', rest') = None.
Proof.
  unfold rightmost_A. split.
  - intros H. apply first_some_cuts_inv in H.
    destruct H as (a & b & Hs & Hf & Hmax).
    assert (a = name).
    { unfold occurrence_A in Hf. simpl in Hf.
      destruct (forallb not_newline a); [| discriminate].
      destruct (mim_key_at b) as [[[m k] r] |]; [| discriminate].
      destruct (inheritance_text r); [| discriminate].
      now inversion Hf. }
    subst a. exists b. auto.
  - intros (rest & Hs & Hf & Hmax).
    now apply (first_some_cuts seg occurrence_A name rest).
Qed.

(** ** Grammar A and the right-most occurrence *)

(** C6, as the specification states it, fails.  The entry below holds two
    occurrences of ", NNNNNN (n)"; the last one, 222222 with key 2, is
    followed by a character that is neither the end nor ", ", so it cannot
    end an entry, and it is the first one that gives the MIM number and the
    key. *)
Lemma last_occurrence_passed_over :
  pattern_occurrences (u "A, 111111 (1), B, 222222 (2)x")
  = [(u "111111", u "1"); (u "222222", u "2")] /\
  phenotype_entry (u "A, 111111 (1), B, 222222 (2)x")
  = Some {| Phenotype.name := u "A";
            Phenotype.mim_number := Some (u "111111");
            Phenotype.mapping_key := u "1";
            Phenotype.inheritance := [u "B"; u "222222 (2)x"] |}.
Proof. split; vm_compute; reflexivity. Qed.

(** C6, amended: Grammar A binds the name greedily up to the right-most
    occurrence of ", NNNNNN (n)" that completes an entry, that is, one that
    is followed by the end of the entry or by ", " and the inheritance text.
    Grammar A matches with a given name, number, key and inheritance text
    exactly when cutting the entry after that name gives such an occurrence
    and cutting it anywhere further right gives none; the entry then parses
    to that name, number and key.  An occurrence that is followed by
    anything else is passed over, also when it is the last one. *)
Theorem grammar_A_binds_rightmost (entry name mim key : str)
        (inh : option str) :
  ((exists matcher,
       re_match grammar_A (strip entry) = Some matcher /\
       matcher 1 = Some name /\ matcher 2 = Some mim /\
       matcher 3 = Some key /\ matcher 5 = inh)
   <->
   (exists rest,
       strip entry = name ++ rest /\
       occurrence_A (name, rest) = Some (name, mim, key, inh) /\
       forall name' rest',
         strip entry = name' ++ rest' -> length name < length name' ->
         occurrence_A (name', rest') = None)) /\
  ((exists matcher,
       re_match grammar_A (strip entry) = Some matcher /\
       matcher 1 = Some name /\ matcher 2 = Some mim /\
       matcher 3 = Some key /\ matcher 5 = inh) ->
   phenotype_entry entry
   = Some {| Phenotype.name := name;
             Phenotype.mim_number := Some mim;
             Phenotype.mapping_key := key;
             Phenotype.inheritance := modes inh |}).
Proof.
  pose proof (grammar_A_rightmost (strip entry)) as HA.
  assert (Hiff : (exists matcher,
                     re_match grammar_A (strip entry) = Some matcher /\
                     matcher 1 = Some name /\ matcher 2 = Some mim /\
                     matcher 3 = Some key /\ matcher 5 = inh)
                 <-> rightmost_A (strip entry) = Some (name, mim, key, inh)).
  { split.
    - intros (g & Hg & H1 & H2 & H3 & H5). rewrite Hg in HA.
      destruct (rightmost_A (strip entry)) as [[[[n m] k] i] |];
        [| discriminate HA].
      simpl in HA. unfold fields_A in HA. rewrite H1, H2, H3, H5 in HA.
      now inversion HA.
    - intros Hr. rewrite Hr in HA.
      destruct (re_match grammar_A (strip entry)) as [g |]; [| discriminate HA].
      exists g. inversion HA. auto. }
  split.
  - rewrite Hiff. apply rightmost_A_spec.
  - intros H. apply Hiff in H.
    now rewrite phenotype_entry_rightmost, H.
Qed.

Lemma grammar_A_binds_rightmost_witness :
  phenotype_entry (u "X, 123456 (1), 654321 (2)")
  = Some {| Phenotype.name := u "X, 123456 (1)";
            Phenotype.mim_number := Some (u "654321");
            Phenotype.mapping_key := u "2";
            Phenotype.inheritance := [] |}.
Proof.
  pose proof (grammar_A_binds_rightmost
                (u "X, 123456 (1), 654321 (2)") (u "X, 123456 (1)")
                (u "654321") (u "2") None) as [Hiff Hentry].
  apply Hentry. apply Hiff.
  apply rightmost_A_spec. vm_compute. reflexivity.
Defined.

(** ** A number that is not six digits long *)

Lemma char_eqb_eq (a b : char) : char_eqb a b = true <-> a = b.
Proof. apply N.eqb_eq. Qed.

Lemma is_space_whitespace (c : char) : is_space c = true -> In c whitespace.
Proof.
  unfold is_space. intros H. apply existsb_exists in H.
  destruct H as (x & Hin & Heq). apply char_eqb_eq in Heq. now subst.
Qed.

Lemma digit_not_space (c : char) : is_digit c = true -> is_space c = false.
Proof.
  intros Hd. destruct (is_space c) eqn:Hs; [| reflexivity].
  apply is_space_whitespace in Hs. unfold whitespace in Hs. simpl in Hs.
  repeat (destruct Hs as [<- | Hs]; [vm_compute in Hd; discriminate Hd |]).
  contradiction.
Qed.

Lemma digit_differs (c x : char) :
  is_digit x = false -> is_digit c = true -> char_eqb c x = false.
Proof.
  intros Hx Hc. destruct (char_eqb c x) eqn:E; [| reflexivity].
  apply char_eqb_eq in E. subst. congruence.
Qed.

Lemma lacks_app (x : char) (a b : str) :
  lacks x (a ++ b) = lacks x a && lacks x b.
Proof. apply forallb_app. Qed.

Lemma lacks_not_in (x : char) (s : str) : lacks x s = true -> ~ In x s.
Proof.
  unfold lacks. intros H Hin. rewrite forallb_forall in H.
  apply H in Hin. unfold char_eqb in Hin. now rewrite N.eqb_refl in Hin.
Qed.

(** *** The rests of a text *)

Lemma rests_app (P : str -> Prop) (x y : str) :
  (forall x1 c x2, x = x1 ++ c :: x2 -> P (c :: x2 ++ y)) ->
  (forall a b, y = a ++ b -> P b) ->
  forall a b, x ++ y = a ++ b -> P b.
Proof.
  revert P. induction x as [| c x IH]; intros P Hx Hy a b H.
  - exact (Hy a b H).
  - destruct a as [| c' a].
    + simpl in H. subst b. exact (Hx [] c x eq_refl).
    + simpl in H. injection H as Hc H. subst c'.
      refine (IH P _ Hy a b H).
      intros x1 d x2 E. apply (Hx (c :: x1) d x2). now rewrite E.
Qed.

Lemma rests_cons (P : str -> Prop) (c : char) (y : str) :
  P (c :: y) ->
  (forall a b, y = a ++ b -> P b) ->
  forall a b, c :: y = a ++ b -> P b.
Proof.
  intros Hc Hy [| c' a] b H.
  - simpl in H. now subst b.
  - simpl in H. injection H as _ H. exact (Hy a b H).
Qed.

Lemma rests_nil (P : str -> Prop) :
  P [] -> forall a b : str, [] = a ++ b -> P b.
Proof.
  intros HP a b H. symmetry in H. apply app_eq_nil in H.
  now destruct H as [_ ->].
Qed.

(** *** Where an occurrence can start *)

Lemma mim_key_at_head (c : char) (b : str) :
  char_eqb c COMMA = false -> mim_key_at (c :: b) = None.
Proof.
  intros H. unfold mim_key_at.
  do 11 (destruct b as [| ? b]; [reflexivity |]).
  now rewrite H.
Qed.

Lemma key_at_head (c : char) (b : str) :
  char_eqb c LPAREN = false -> key_at (c :: b) = None.
Proof.
  intros H. unfold key_at.
  do 2 (destruct b as [| ? b]; [reflexivity |]).
  now rewrite H.
Qed.

Lemma mim_key_at_inv (b mim key rest : str) :
  mim_key_at b = Some (mim, key, rest) ->
  exists w1 w2 k,
    b = COMMA :: w1 :: mim ++ w2 :: LPAREN :: k :: RPAREN :: rest /\
    key = [k] /\ length mim = 6 /\ forallb is_digit mim = true /\
    is_space w1 = true /\ is_space w2 = true /\ is_digit k = true.
Proof.
  unfold mim_key_at.
  do 12 (destruct b as [| ? b]; [discriminate |]).
  match goal with
  | |- (if ?c then _ else _) = _ -> _ => destruct c eqn:E; [| discriminate]
  end.
  intros H. inversion H; subst. clear H.
  repeat (apply andb_true_iff in E; destruct E as [E ?]).
  repeat match goal with
         | H : char_eqb _ _ = true |- _ => apply char_eqb_eq in H; subst
         end.
  do 3 eexists. split; [reflexivity |].
  repeat split; try assumption.
Qed.

Lemma forallb_in {A : Type} (f : A -> bool) (l : list A) (x : A) :
  forallb f l = true -> In x l -> f x = true.
Proof. intros H. rewrite forallb_forall in H. apply H. Qed.

(** A run of digits that is not six long, followed by a space, is not the
    number of an occurrence. *)
Lemma number_mismatch (number rest : str) :
  forallb is_digit number = true ->
  length number <> 6 ->
  mim_key_at (COMMA :: SPACE :: number ++ SPACE :: rest) = None.
Proof.
  intros Hd Hlen.
  destruct (mim_key_at (COMMA :: SPACE :: number ++ SPACE :: rest))
    as [[[m k] r] |] eqn:E; [| reflexivity].
  apply mim_key_at_inv in E.
  destruct E as (w1 & w2 & kc & Hb & _ & Hm & Hmd & _ & Hw2 & _).
  injection Hb as _ Hb.
  apply app_eq_app in Hb. destruct Hb as (l & [[H1 H2] | [H1 H2]]).
  - destruct l as [| x l].
    + rewrite app_nil_r in H1. subst. contradiction.
    + simpl in H2. injection H2 as Hx _. subst x.
      assert (Hin : In w2 number) by (subst number; apply in_elt).
      apply (forallb_in _ _ _ Hd) in Hin.
      apply digit_not_space in Hin. congruence.
  - destruct l as [| x l].
    + rewrite app_nil_r in H1. subst. contradiction.
    + simpl in H2. injection H2 as Hx _. subst x.
      assert (Hin : In SPACE m) by (subst m; apply in_elt).
      apply (forallb_in _ _ _ Hmd) in Hin. discriminate Hin.
Qed.

Lemma mim_key_at_lparen (b : str) :
  mim_key_at b <> None -> In LPAREN b.
Proof.
  destruct (mim_key_at b) as [[[m k] r] |] eqn:E; [intros _ | congruence].
  apply mim_key_at_inv in E. destruct E as (w1 & w2 & kc & -> & _).
  right. right. apply in_or_app. right. right. now left.
Qed.

(** No rest of a text without a parenthesis starts an occurrence. *)
Lemma lacks_lparen_rests (t : str) :
  lacks LPAREN t = true ->
  forall a b, t = a ++ b -> mim_key_at b = None /\ key_at b = None.
Proof.
  intros Ht a b H. subst t. rewrite lacks_app in Ht.
  apply andb_true_iff in Ht. destruct Ht as [_ Hb].
  split.
  - destruct (mim_key_at b) eqn:E; [| reflexivity].
    exfalso. apply (lacks_not_in _ _ Hb). apply mim_key_at_lparen. congruence.
  - destruct b as [| c b]; [reflexivity |].
    apply key_at_head. simpl in Hb. apply andb_true_iff in Hb.
    destruct Hb as [Hc _]. now destruct (char_eqb c LPAREN).
Qed.

Lemma one_line_drop (t : str) :
  forallb not_newline t = true -> drop_line t = [].
Proof.
  induction t as [| c t IH]; simpl; [reflexivity |].
  intros H. apply andb_true_iff in H. destruct H as [Hc Ht].
  rewrite Hc. now apply IH.
Qed.

Lemma one_line_take (t : str) :
  forallb not_newline t = true -> take_line t = t.
Proof.
  induction t as [| c t IH]; simpl; [reflexivity |].
  intros H. apply andb_true_iff in H. destruct H as [Hc Ht].
  rewrite Hc. now rewrite IH.
Qed.

Section ShortNumber.

Variables name number : str.
Variable key : char.
Variable inh : option str.

Hypothesis name_no_comma : lacks COMMA name = true.
Hypothesis name_one_line : forallb not_newline name = true.
Hypothesis number_digits : forallb is_digit number = true.
Hypothesis number_length : length number <> 6.
Hypothesis key_digit : is_digit key = true.
Hypothesis inh_plain :
  forall t, inh = Some t ->
            lacks LPAREN t = true /\ forallb not_newline t = true.

Let tail : str :=
  match inh with
  | Some t => COMMA :: SPACE :: t
  | None => []
  end.

Lemma tail_rests (a b : str) :
  tail = a ++ b -> mim_key_at b = None /\ key_at b = None.
Proof.
  unfold tail. destruct inh as [t |] eqn:Ei.
  - destruct (inh_plain t eq_refl) as [Hl _].
    revert a b.
    apply (rests_cons (fun b => mim_key_at b = None /\ key_at b = None)).
    { split; [| now apply key_at_head].
      destruct (mim_key_at (COMMA :: SPACE :: t)) eqn:E; [| reflexivity].
      exfalso. apply (lacks_not_in _ _ Hl).
      assert (Hin : In LPAREN (COMMA :: SPACE :: t))
        by (apply mim_key_at_lparen; congruence).
      destruct Hin as [Hin | [Hin | Hin]]; [discriminate | discriminate | exact Hin]. }
    apply (rests_cons (fun b => mim_key_at b = None /\ key_at b = None)).
    { split; [now apply mim_key_at_head | now apply key_at_head]. }
    now apply lacks_lparen_rests.
  - revert a b.
    now apply (rests_nil (fun b => mim_key_at b = None /\ key_at b = None)).
Qed.

(** Grammar A finds no occurrence anywhere in the entry. *)
Lemma short_number_no_A (a b : str) :
  entry_text name number key inh = a ++ b -> mim_key_at b = None.
Proof.
  unfold entry_text. fold tail. revert a b.
  apply (rests_app (fun b => mim_key_at b = None)).
  { intros x1 c x2 Hn. apply mim_key_at_head.
    assert (Hin : In c name) by (rewrite Hn; apply in_elt).
    apply (forallb_in _ _ _ name_no_comma) in Hin.
    now destruct (char_eqb c COMMA). }
  apply (rests_cons (fun b => mim_key_at b = None)).
  { now apply number_mismatch. }
  apply (rests_cons (fun b => mim_key_at b = None)).
  { now apply mim_key_at_head. }
  apply (rests_app (fun b => mim_key_at b = None)).
  { intros x1 c x2 Hn. apply mim_key_at_head.
    assert (Hin : In c number) by (rewrite Hn; apply in_elt).
    apply (forallb_in _ _ _ number_digits) in Hin.
    now apply digit_differs. }
  apply (rests_cons (fun b => mim_key_at b = None));
    [now apply mim_key_at_head |].
  apply (rests_cons (fun b => mim_key_at b = None));
    [now apply mim_key_at_head |].
  apply (rests_cons (fun b => mim_key_at b = None));
    [apply mim_key_at_head; now apply digit_differs |].
  apply (rests_cons (fun b => mim_key_at b = None));
    [now apply mim_key_at_head |].
  intros a b H. now apply (tail_rests a b).
Qed.

(** Grammar B finds its right-most occurrence at the key. *)
Lemma short_number_B :
  rightmost_B (entry_text name number key inh)
  = Some (name ++ COMMA :: SPACE :: number ++ [SPACE], [key], inh).
Proof.
  unfold rightmost_B.
  apply (first_some_cuts _ occurrence_B
           (name ++ COMMA :: SPACE :: number ++ [SPACE])
           (LPAREN :: key :: RPAREN :: tail)).
  - unfold entry_text. fold tail.
    rewrite <- app_assoc. simpl. now rewrite <- app_assoc.
  - unfold occurrence_B. simpl fst. simpl snd.
    rewrite forallb_app, name_one_line. simpl forallb.
    rewrite forallb_app. simpl forallb.
    assert (Hn : forallb not_newline number = true).
    { apply forallb_forall. intros c Hc.
      apply (forallb_in _ _ _ number_digits) in Hc.
      unfold not_newline. now rewrite (digit_differs c NEWLINE). }
    rewrite Hn. simpl. rewrite key_digit. simpl.
    unfold tail. destruct inh as [t |] eqn:Ei; [| reflexivity].
    destruct (inh_plain t eq_refl) as [_ Ht].
    unfold inheritance_text. simpl at_end.
    rewrite (one_line_drop t Ht), (one_line_take t Ht).
    now destruct t.
  - intros a' b' Hs Hlen.
    assert (Hk : key_at b' = None).
    { unfold entry_text in Hs. fold tail in Hs.
      replace (name ++ COMMA :: SPACE :: number ++
                    SPACE :: LPAREN :: key :: RPAREN :: tail)
        with ((name ++ COMMA :: SPACE :: number ++ [SPACE]) ++
              LPAREN :: key :: RPAREN :: tail) in Hs
        by (rewrite <- app_assoc; simpl; now rewrite <- app_assoc).
      apply app_eq_app in Hs. destruct Hs as (l & [[H1 H2] | [H1 H2]]).
      - rewrite H1, length_app in Hlen. lia.
      - destruct l as [| x l].
        + rewrite H1, app_nil_r in Hlen. lia.
        + simpl in H2. injection H2 as _ H2. clear H1 Hlen. revert l b' H2.
          apply (rests_cons (fun b => key_at b = None));
            [apply key_at_head; now apply digit_differs |].
          apply (rests_cons (fun b => key_at b = None));
            [now apply key_at_head |].
          intros a b H. now apply (tail_rests a b). }
    unfold occurrence_B. simpl snd. rewrite Hk.
    now destruct (forallb not_newline (fst (a', b'))).
Qed.

End ShortNumber.

(** C10, as the claim states it, fails: an entry can have the shape of a
    Grammar A entry with a five-digit number and still match Grammar A,
    through an occurrence with a six-digit number inside what was meant as
    its name. *)
Lemma five_digit_number_after_six_digit_one :
  u "X, 123456 (1), 12345 (2)"
  = entry_text (u "X, 123456 (1)") (u "12345") 50 None /\
  matches grammar_A (strip (u "X, 123456 (1), 12345 (2)")) = true /\
  phenotype_entry (u "X, 123456 (1), 12345 (2)")
  = Some {| Phenotype.name := u "X";
            Phenotype.mim_number := Some (u "123456");
            Phenotype.mapping_key := u "1";
            Phenotype.inheritance := [u "12345 (2)"] |}.
Proof. repeat split. Qed.

(** * Further properties *)

(** ** Splitting and joining *)

Lemma split_from_not_nil (sep : str) (s : str) :
  forall k cur, split_from sep k cur s <> [].
Proof.
  induction s as [| c s IH]; intros k cur; simpl; [discriminate |].
  destruct k; [| apply IH].
  destruct (startswith (c :: s) sep); [discriminate | apply IH].
Qed.

Lemma join_cons (sep p : str) (l : list str) :
  l <> [] -> join sep (p :: l) = p ++ sep ++ join sep l.
Proof. destruct l; [contradiction | reflexivity]. Qed.

Lemma startswith_skipn (sep s : str) :
  startswith s sep = true -> s = sep ++ skipn (length sep) s.
Proof.
  revert s. induction sep as [| p sep IH]; intros s H; [reflexivity |].
  destruct s as [| c s]; [discriminate |].
  simpl in H. apply andb_true_iff in H. destruct H as [Hc Hs].
  apply N.eqb_eq in Hc. subst. simpl. now rewrite <- (IH s Hs).
Qed.

Lemma join_split_from (sep : str) :
  sep <> [] ->
  forall s k cur, join sep (split_from sep k cur s) = rev cur ++ skipn k s.
Proof.
  intros Hsep. induction s as [| c s IH]; intros k cur.
  - simpl. destruct k; simpl; now rewrite app_nil_r.
  - destruct k as [| k]; [| simpl; apply IH].
    cbn [split_from skipn].
    destruct (startswith (c :: s) sep) eqn:E.
    + rewrite join_cons by apply split_from_not_nil.
      rewrite IH. simpl rev. simpl app at 3.
      destruct sep as [| p sep]; [contradiction |].
      apply startswith_skipn in E. simpl in E.
      replace (length (p :: sep) - 1) with (length sep) by (simpl; lia).
      simpl. now rewrite <- E.
    + rewrite IH. simpl. now rewrite <- app_assoc.
Qed.

(** [sep.join(s.split(sep))] gives [s] back, for every text and every
    non-empty separator: splitting loses nothing. *)
Lemma join_split (s sep : str) :
  sep <> [] -> join sep (split s sep) = s.
Proof.
  intros H. unfold split. now rewrite (join_split_from sep H s 0 []).
Qed.

Lemma join_char_cons (c x : N) (p : str) (parts : list str) :
  join [c] ((x :: p) :: parts) = x :: join [c] (p :: parts).
Proof. destruct parts; reflexivity. Qed.

Lemma split_from_join_char (c : N) (parts : list str) :
  Forall (fun p => lacks c p = true) parts ->
  forall p cur,
    lacks c p = true ->
    split_from [c] 0 cur (join [c] (p :: parts)) = (rev cur ++ p) :: parts.
Proof.
  induction parts as [| q parts IH]; intros Hall p.
  - induction p as [| x p IHp]; intros cur Hp.
    + simpl. now rewrite app_nil_r.
    + simpl in Hp. apply andb_true_iff in Hp. destruct Hp as [Hx Hp].
      cbn [join split_from startswith].
      destruct (char_eqb x c); [discriminate |]. simpl andb. cbv iota.
      change (split_from [c] 0 (x :: cur) p)
        with (split_from [c] 0 (x :: cur) (join [c] [p])).
      rewrite IHp by exact Hp. simpl. now rewrite <- app_assoc.
  - inversion Hall as [| ? ? Hq Hrest]; subst.
    induction p as [| x p IHp]; intros cur Hp.
    + change (join [c] ([] :: q :: parts)) with (c :: join [c] (q :: parts)).
      cbn [split_from startswith]. unfold char_eqb. rewrite N.eqb_refl.
      simpl andb. cbv iota. simpl length. simpl Nat.sub.
      rewrite (IH Hrest q [] Hq). simpl. now rewrite app_nil_r.
    + simpl in Hp. apply andb_true_iff in Hp. destruct Hp as [Hx Hp].
      rewrite join_char_cons. cbn [split_from startswith].
      destruct (char_eqb x c); [discriminate |]. simpl andb. cbv iota.
      rewrite IHp by exact Hp. simpl. now rewrite <- app_assoc.
Qed.

(** Parts without the separator character come back from a split of their
    join. *)
Lemma split_join_char (c : N) (p : str) (parts : list str) :
  Forall (fun p => lacks c p = true) (p :: parts) ->
  split (join [c] (p :: parts)) [c] = p :: parts.
Proof.
  intros H. inversion H; subst. unfold split.
  now rewrite split_from_join_char.
Qed.

Lemma split_from_char_lacks (c : N) (s : str) :
  forall cur,
    lacks c cur = true ->
    Forall (fun p => lacks c p = true) (split_from [c] 0 cur s).
Proof.
  induction s as [| x s IH]; intros cur Hcur.
  - constructor; [| constructor]. unfold lacks in *. now rewrite forallb_rev.
  - cbn [split_from startswith]. destruct (char_eqb x c) eqn:E; simpl andb; cbv iota.
    + constructor; [unfold lacks in *; now rewrite forallb_rev |].
      simpl. now apply IH.
    + apply IH. simpl. fold (lacks c cur). unfold char_eqb in *. now rewrite E.
Qed.

(** ** Stripping *)

Lemma lstrip_head (s : str) (c : N) (t : str) :
  lstrip s = c :: t -> is_space c = false.
Proof.
  induction s as [| x s IH]; simpl; [discriminate |].
  destruct (is_space x) eqn:E; [exact IH |].
  intros H. injection H as <- _. exact E.
Qed.

Lemma lstrip_keeps (s : str) (c : N) (t : str) :
  s = c :: t -> is_space c = false -> lstrip s = s.
Proof. intros -> H. simpl. now rewrite H. Qed.

Lemma lstrip_idem (s : str) : lstrip (lstrip s) = lstrip s.
Proof.
  destruct (lstrip s) as [| c t] eqn:E; [reflexivity |].
  apply (lstrip_keeps _ c t eq_refl). exact (lstrip_head s c t E).
Qed.

Lemma rstrip_nonspace_cons (c : N) (t : str) :
  is_space c = false -> rstrip (c :: t) = c :: rstrip t.
Proof.
  intros H. unfold rstrip. simpl rev. rewrite lstrip_app.
  destruct (lstrip (rev t)) as [| x l] eqn:E.
  - simpl. now rewrite H.
  - now rewrite rev_app_distr.
Qed.

Lemma rstrip_last (s t : str) (c : N) :
  rstrip s = t ++ [c] -> is_space c = false.
Proof.
  unfold rstrip. intros H.
  apply (f_equal (@rev N)) in H. rewrite rev_involutive, rev_app_distr in H.
  simpl in H. exact (lstrip_head _ _ _ H).
Qed.

(** The result of [strip] neither starts nor ends with whitespace. *)
Lemma strip_head (s : str) (c : N) (t : str) :
  strip s = c :: t -> is_space c = false.
Proof.
  unfold strip. destruct (lstrip s) as [| x l] eqn:E.
  - discriminate.
  - pose proof (lstrip_head s x l E) as Hx.
    rewrite (rstrip_nonspace_cons x l Hx). intros H. now injection H as <- _.
Qed.

Lemma strip_last (s t : str) (c : N) :
  strip s = t ++ [c] -> is_space c = false.
Proof. unfold strip. apply rstrip_last. Qed.

Lemma rstrip_keeps (t : str) (c : N) :
  is_space c = false -> rstrip (t ++ [c]) = t ++ [c].
Proof.
  intros H. unfold rstrip. rewrite rev_app_distr. simpl. rewrite H.
  simpl. now rewrite rev_involutive.
Qed.

Lemma last_char (s : str) : s = [] \/ exists t c, s = t ++ [c].
Proof.
  destruct s as [| x s]; [now left | right].
  destruct (@exists_last N (x :: s)) as (t & c & H); [discriminate |].
  now exists t, c.
Qed.

(** ** [process_line], beyond the claims *)

Lemma process_line_comment (line : str) :
  is_comment line = true -> process_line line = Ok None.
Proof.
  intros H. unfold process_line. unfold is_comment in H. now rewrite H.
Qed.

Lemma fields_of_fourteen (line : str) :
  length (fields_of line) = 14 ->
  fields_of line =
  [field 0 line; field 1 line; field 2 line; field 3 line; field 4 line;
   field 5 line; field 6 line; field 7 line; field 8 line; field 9 line;
   field 10 line; field 11 line; field 12 line; field 13 line].
Proof.
  unfold field. intros H.
  remember (fields_of line) as fields eqn:Ef. clear Ef.
  do 14 (destruct fields as [| ? fields]; [discriminate H |]).
  destruct fields; [reflexivity | discriminate H].
Qed.

(** What a returned record tells about the line. *)
Lemma process_line_record (line : str) (r : GeneRecord) :
  process_line line = Ok (Some r) ->
  is_comment line = false /\
  length (fields_of line) = 14 /\
  field 12 line <> [] /\
  r = {| chromosome := field 0 line;
         genomic_position_start := field 1 line;
         genomic_position_end := field 2 line;
         cyto_location := field 3 line;
         computed_cyto_location := field 4 line;
         mim_number := field 5 line;
         gene_symbols := field 6 line;
         gene_name := field 7 line;
         approved_gene_symbol := field 8 line;
         entrez_gene_id := field 9 line;
         ensembl_gene_id := field 10 line;
         comments := field 11 line;
         mouse := field 13 line;
         phenotypes := phenotype_loop (split (field 12 line) [SEMICOLON]) |}.
Proof.
  intros H.
  destruct (is_comment line) eqn:Hc.
  { rewrite (process_line_comment _ Hc) in H. discriminate. }
  destruct (Nat.lt_trichotomy (length (fields_of line)) 14) as [Hl | [Hl | Hl]].
  - rewrite (process_line_short _ Hl) in H. discriminate.
  - rewrite (process_line_fourteen _ Hc Hl) in H.
    destruct (field 12 line) as [| c t] eqn:E; simpl in H; [discriminate |].
    injection H as <-. repeat split; try assumption. discriminate.
  - rewrite (process_line_overflow _ Hc Hl) in H. discriminate.
Qed.

(** X1. [process_line] raises exactly for a line that is no comment and
    has more than fourteen fields once stripped, and what it raises is the
    [ValueError] that quotes the line as it was given. *)
Theorem process_line_raises_iff (line : str) (e : exn) :
  process_line line = Raise e <->
  is_comment line = false /\ 14 < length (fields_of line) /\
  e = ValueError (u "Unexpected number of columns in line: " ++ line).
Proof.
  split.
  - apply process_line_raise.
  - intros (Hc & Hl & ->). now apply process_line_overflow.
Qed.

(** X2. A returned record gives the stripped line back: its text fields
    and the phenotype field, joined by tabs in file order, are the line
    without its outer whitespace, and the phenotype field is not empty. *)
Theorem record_gives_line_back (line : str) (r : GeneRecord) :
  process_line line = Ok (Some r) ->
  exists phenotype_string,
    phenotype_string <> [] /\
    strip line = row_text r phenotype_string /\
    phenotypes r = phenotype_loop (split phenotype_string [SEMICOLON]).
Proof.
  intros H. apply process_line_record in H.
  destruct H as (_ & Hlen & Hne & ->).
  exists (field 12 line). split; [exact Hne |]. split; [| reflexivity].
  unfold row_text. cbn [chromosome genomic_position_start genomic_position_end
    cyto_location computed_cyto_location mim_number gene_symbols gene_name
    approved_gene_symbol entrez_gene_id ensembl_gene_id comments mouse].
  rewrite <- (fields_of_fourteen line Hlen). unfold fields_of.
  symmetry. apply join_split. discriminate.
Qed.

Lemma record_gives_line_back_witness :
  exists phenotype_string,
    phenotype_string <> [] /\
    strip row_one_phenotype
    = row_text (with_phenotypes
                  (mkGeneRecord (u "1") (u "1000") (u "2000") (u "1p36")
                     (u "1p36.33") (u "100000") (u "GENE1, G1") (u "Gene one")
                     (u "GENE1") (u "101") (u "ENSG001") (u "a comment")
                     (u "Gene1 (MGI:1)") [])
                  [Phenotype.mk (u "Some syndrome") None (u "1") []])
               phenotype_string.
Proof.
  destruct (record_gives_line_back row_one_phenotype
              (with_phenotypes
                  (mkGeneRecord (u "1") (u "1000") (u "2000") (u "1p36")
                     (u "1p36.33") (u "100000") (u "GENE1, G1") (u "Gene one")
                     (u "GENE1") (u "101") (u "ENSG001") (u "a comment")
                     (u "Gene1 (MGI:1)") [])
                  [Phenotype.mk (u "Some syndrome") None (u "1") []]))
    as (ph & H1 & H2 & _).
  - reflexivity.
  - exists ph. split; assumption.
Defined.

Lemma fields_of_lack_tabs (line : str) :
  Forall (fun p => lacks TAB p = true) (fields_of line).
Proof. apply split_from_char_lacks. reflexivity. Qed.

(** X3. What every returned record satisfies: none of its text fields
    holds a tab; its first field, the chromosome, is not empty and does not
    start with whitespace; its last field, [mouse], is not empty and does
    not end with whitespace.  A row with a blank first or last column never
    gives a record. *)
Theorem record_fields_invariant (line : str) (r : GeneRecord) :
  process_line line = Ok (Some r) ->
  Forall (fun f => lacks TAB f = true) (text_fields r) /\
  (exists c t, chromosome r = c :: t /\ is_space c = false) /\
  (exists t c, mouse r = t ++ [c] /\ is_space c = false).
Proof.
  intros H. apply process_line_record in H.
  destruct H as (_ & Hlen & _ & ->).
  pose proof (fields_of_lack_tabs line) as Hall.
  assert (Hs : strip line = join [TAB] (fields_of line))
    by (symmetry; apply join_split; discriminate).
  rewrite (fields_of_fourteen line Hlen) in Hall, Hs.
  unfold text_fields. simpl.
  split; [| split].
  - repeat match goal with
           | H : Forall _ (_ :: _) |- _ => inversion H; clear H; subst
           end.
    repeat constructor; assumption.
  - destruct (field 0 line) as [| c t] eqn:E.
    + simpl in Hs. apply strip_head in Hs. discriminate Hs.
    + exists c, t. split; [reflexivity |]. simpl in Hs.
      exact (strip_head _ _ _ Hs).
  - destruct (last_char (field 13 line)) as [E | (t & c & E)].
    + rewrite E in Hs. simpl in Hs.
      repeat rewrite app_comm_cons in Hs.
      repeat rewrite app_assoc in Hs.
      match type of Hs with
      | strip _ = ?a ++ TAB :: [] => apply (strip_last line a TAB) in Hs
      end.
      discriminate Hs.
    + exists t, c. split; [exact E |]. rewrite E in Hs. simpl in Hs.
      repeat rewrite app_comm_cons in Hs.
      repeat rewrite app_assoc in Hs.
      match type of Hs with
      | strip _ = ?a ++ [c] => exact (strip_last line a c Hs)
      end.
Qed.

Lemma record_fields_invariant_witness :
  (exists c t, u "1" = c :: t /\ is_space c = false) /\
  (exists t c, u "Gene1 (MGI:1)" = t ++ [c] /\ is_space c = false).
Proof.
  exact (proj2 (record_fields_invariant row_one_phenotype
                  (with_phenotypes
                     (mkGeneRecord (u "1") (u "1000") (u "2000") (u "1p36")
                        (u "1p36.33") (u "100000") (u "GENE1, G1")
                        (u "Gene one") (u "GENE1") (u "101") (u "ENSG001")
                        (u "a comment") (u "Gene1 (MGI:1)") [])
                     [Phenotype.mk (u "Some syndrome") None (u "1") []])
                  eq_refl)).
Defined.

Lemma lstrip_app_keeps (a b : str) :
  lstrip a = a -> a <> [] -> lstrip (a ++ b) = a ++ b.
Proof.
  intros H Hne. rewrite lstrip_app, H. destruct a; [contradiction | reflexivity].
Qed.

Lemma rstrip_app_keeps (a b : str) :
  rstrip b = b -> b <> [] -> rstrip (a ++ b) = a ++ b.
Proof.
  intros H Hne. unfold rstrip in *. rewrite rev_app_distr.
  assert (Hl : lstrip (rev b) = rev b).
  { apply (f_equal (@rev N)) in H. now rewrite rev_involutive in H. }
  rewrite lstrip_app_keeps; [| exact Hl |].
  - now rewrite rev_app_distr, !rev_involutive.
  - intros E. apply Hne. apply (f_equal (@rev N)) in E.
    now rewrite rev_involutive in E.
Qed.

Lemma startswith_app_keeps (a b : str) (p : N) :
  a <> [] -> startswith (a ++ b) [p] = startswith a [p].
Proof. destruct a; [contradiction | reflexivity]. Qed.

Lemma space_not_hash (w : str) :
  forallb is_space w = true -> startswith w [HASH] = false.
Proof.
  destruct w as [| c w]; [reflexivity |]. simpl. intros H.
  apply andb_true_iff in H. destruct H as [Hc _].
  destruct (char_eqb c HASH) eqn:E; [| reflexivity].
  apply N.eqb_eq in E. subst c. discriminate Hc.
Qed.

(** X4. A row written from a record is read back as that record.  Take
    text fields without tabs, a chromosome that is not empty and starts
    neither with whitespace nor with the comment sign, a [mouse] field that
    is not empty and does not end with whitespace, and a non-empty
    phenotype field without tabs: [process_line] of the fields joined by
    tabs, followed by any whitespace (the newline), returns the record with
    the annotations of the phenotype field. *)
Theorem written_row_read_back (r : GeneRecord) (phenotype_string w : str) :
  Forall (fun f => lacks TAB f = true) (phenotype_string :: text_fields r) ->
  phenotype_string <> [] ->
  chromosome r <> [] -> lstrip (chromosome r) = chromosome r ->
  startswith (chromosome r) [HASH] = false ->
  mouse r <> [] -> rstrip (mouse r) = mouse r ->
  forallb is_space w = true ->
  process_line (row_text r phenotype_string ++ w)
  = Ok (Some (with_phenotypes r
                (phenotype_loop (split phenotype_string [SEMICOLON])))).
Proof.
  intros Hall Hph Hc Hcl Hch Hm Hmr Hw.
  assert (Hs : strip (row_text r phenotype_string ++ w)
               = row_text r phenotype_string).
  { rewrite strip_spaces by exact Hw. unfold strip, row_text.
    rewrite join_cons by discriminate.
    rewrite (lstrip_app_keeps _ _ Hcl Hc).
    rewrite <- join_cons by discriminate.
    cbn [join]. repeat rewrite app_comm_cons. repeat rewrite app_assoc.
    apply rstrip_app_keeps; assumption. }
  assert (Hf : fields_of (row_text r phenotype_string ++ w)
               = [chromosome r; genomic_position_start r;
                  genomic_position_end r; cyto_location r;
                  computed_cyto_location r; mim_number r; gene_symbols r;
                  gene_name r; approved_gene_symbol r; entrez_gene_id r;
                  ensembl_gene_id r; comments r; phenotype_string; mouse r]).
  { unfold fields_of. rewrite Hs. unfold row_text. apply split_join_char.
    unfold text_fields in Hall.
    repeat match goal with
           | H : Forall _ (_ :: _) |- _ => inversion H; clear H; subst
           end.
    repeat constructor; assumption. }
  assert (Hcom : is_comment (row_text r phenotype_string ++ w) = false).
  { unfold is_comment, row_text. rewrite join_cons by discriminate.
    rewrite <- app_assoc. now rewrite startswith_app_keeps. }
  rewrite (process_line_fourteen _ Hcom) by (now rewrite Hf).
  unfold field. rewrite Hf. simpl nth.
  destruct phenotype_string; [contradiction | reflexivity].
Qed.

Lemma written_row_read_back_witness :
  process_line
    (row_text (mkGeneRecord (u "1") (u "1000") (u "2000") (u "1p36")
                 (u "1p36.33") (u "100000") (u "GENE1, G1") (u "Gene one")
                 (u "GENE1") (u "101") (u "ENSG001") (u "a comment")
                 (u "Gene1 (MGI:1)") [])
              (u "Some syndrome(1)") ++ [NEWLINE])
  = Ok (Some (with_phenotypes
                (mkGeneRecord (u "1") (u "1000") (u "2000") (u "1p36")
                   (u "1p36.33") (u "100000") (u "GENE1, G1") (u "Gene one")
                   (u "GENE1") (u "101") (u "ENSG001") (u "a comment")
                   (u "Gene1 (MGI:1)") [])
                (phenotype_loop (split (u "Some syndrome(1)") [SEMICOLON])))).
Proof.
  apply written_row_read_back; try reflexivity; try discriminate.
  repeat constructor.
Defined.

(** X5. Whitespace after a line changes nothing but the text of the error:
    with or without its newline, a line gives the same record or the same
    skip, and if one raises so does the other. *)
Theorem trailing_whitespace_ignored (line w : str) :
  forallb is_space w = true ->
  process_line (line ++ w) =
  match process_line line with
  | Raise _ => Raise (column_error (line ++ w))
  | Ok entry => Ok entry
  end.
Proof.
  intros Hw.
  assert (Hf : fields_of (line ++ w) = fields_of line)
    by (unfold fields_of; now rewrite strip_spaces).
  assert (Hc : is_comment (line ++ w) = is_comment line).
  { unfold is_comment. destruct line as [| c l]; [| reflexivity].
    simpl app. now rewrite space_not_hash. }
  destruct (is_comment line) eqn:Hcl.
  { now rewrite (process_line_comment _ Hc), (process_line_comment _ Hcl). }
  destruct (Nat.lt_trichotomy (length (fields_of line)) 14) as [Hl | [Hl | Hl]].
  - rewrite (process_line_short line Hl).
    apply process_line_short. now rewrite Hf.
  - rewrite (process_line_fourteen line Hcl Hl).
    rewrite (process_line_fourteen (line ++ w) Hc) by (now rewrite Hf).
    unfold field. rewrite Hf.
    now destruct (is_empty (nth 12 (fields_of line) [])).
  - rewrite (process_line_overflow line Hcl Hl).
    apply process_line_overflow; [exact Hc | now rewrite Hf].
Qed.

Lemma trailing_whitespace_ignored_witness :
  process_line (row_one_phenotype ++ [NEWLINE; SPACE])
  = process_line row_one_phenotype.
Proof.
  rewrite (trailing_whitespace_ignored row_one_phenotype [NEWLINE; SPACE] eq_refl).
  reflexivity.
Defined.

(** X6. A row whose first column is blank is skipped without an error: the
    strip of the line takes the blank and the tab after it away, so at most
    thirteen fields are left of a line with thirteen tabs. *)
Theorem blank_first_field_skipped (w rest : str) :
  forallb is_space w = true ->
  tabs (w ++ [TAB] ++ rest) <= 13 ->
  process_line (w ++ [TAB] ++ rest) = Ok None.
Proof.
  intros Hw Ht. apply process_line_short. rewrite fields_of_length.
  rewrite !tabs_app in Ht. change (tabs [TAB]) with 1 in Ht.
  unfold strip. rewrite app_assoc, lstrip_spaces.
  - unfold rstrip. rewrite tabs_rev.
    pose proof (tabs_lstrip (rev (lstrip rest))) as H1.
    rewrite tabs_rev in H1. pose proof (tabs_lstrip rest) as H2. lia.
  - rewrite forallb_app, Hw. reflexivity.
Qed.

Lemma blank_first_field_skipped_witness :
  process_line (u "" ++ [TAB] ++ skipn 2 row_one_phenotype) = Ok None.
Proof.
  apply (blank_first_field_skipped (u "") (skipn 2 row_one_phenotype)).
  - reflexivity.
  - vm_compute. lia.
Defined.

(** ** Annotations, beyond the claims *)

Lemma key_at_inv (b key rest : str) :
  key_at b = Some (key, rest) ->
  exists k, b = LPAREN :: k :: RPAREN :: rest /\ key = [k] /\
            is_digit k = true.
Proof.
  unfold key_at.
  do 3 (destruct b as [| ? b]; [discriminate |]).
  match goal with
  | |- (if ?c then _ else _) = _ -> _ => destruct c eqn:E; [| discriminate]
  end.
  intros H. inversion H; subst. clear H.
  repeat (apply andb_true_iff in E; destruct E as [E ?]).
  repeat match goal with
         | H : char_eqb _ _ = true |- _ => apply char_eqb_eq in H; subst
         end.
  eexists. repeat split. assumption.
Qed.

Lemma at_end_inv (s : str) : at_end s = true -> s = [] \/ s = [NEWLINE].
Proof.
  destruct s as [| c [| d s]]; simpl; intros H; try discriminate.
  - now left.
  - right. apply char_eqb_eq in H. now subst.
Qed.

Lemma inheritance_text_inv (rest : str) (inh : option str) :
  inheritance_text rest = Some inh ->
  (inh = None /\ at_end rest = true) \/
  (exists t, inh = Some (take_line t) /\ rest = COMMA :: SPACE :: t /\
             at_end (drop_line t) = true).
Proof.
  unfold inheritance_text. destruct (at_end rest) eqn:E.
  - intros H. injection H as <-. now left.
  - destruct rest as [| c1 [| c2 t]]; try discriminate.
    destruct (char_eqb c1 COMMA) eqn:E1; [| discriminate].
    destruct (char_eqb c2 SPACE) eqn:E2; [| discriminate].
    destruct (at_end (drop_line t)) eqn:E3; [| discriminate].
    simpl. intros H. injection H as <-. right. exists t.
    apply char_eqb_eq in E1, E2. subst. auto.
Qed.

(** In a text that does not end with whitespace, the inheritance text of a
    complete occurrence is all that follows ", ", and it is not empty. *)
Lemma inheritance_text_stripped (front rest : str) (inh : option str) :
  (forall t c, front ++ rest = t ++ [c] -> is_space c = false) ->
  inheritance_text rest = Some inh ->
  rest = inheritance_tail (modes inh) /\
  (forall t, inh = Some t -> forallb not_newline t = true).
Proof.
  intros Hlast H. apply inheritance_text_inv in H.
  destruct H as [[-> He] | (t & -> & -> & He)].
  - apply at_end_inv in He. destruct He as [-> | ->].
    + split; [reflexivity | discriminate].
    + specialize (Hlast front NEWLINE eq_refl). discriminate Hlast.
  - apply at_end_inv in He.
    assert (Ht : t = take_line t).
    { destruct He as [He | He].
      - rewrite (take_drop_line t) at 1. now rewrite He, app_nil_r.
      - exfalso.
        specialize (Hlast (front ++ COMMA :: SPACE :: take_line t) NEWLINE).
        rewrite <- app_assoc in Hlast. simpl in Hlast.
        rewrite <- He, <- take_drop_line in Hlast.
        specialize (Hlast eq_refl). discriminate Hlast. }
    rewrite <- Ht. split.
    + destruct t as [| c t'].
      * exfalso. specialize (Hlast (front ++ [COMMA]) SPACE).
        rewrite <- app_assoc in Hlast. specialize (Hlast eq_refl).
        discriminate Hlast.
      * unfold modes, inheritance_tail.
        pose proof (split_from_not_nil (u ", ") (c :: t') 0 []) as Hne.
        fold (split (c :: t') (u ", ")) in Hne.
        destruct (split (c :: t') (u ", ")) as [| m ms] eqn:E;
          [contradiction |].
        rewrite <- E, join_split by discriminate. reflexivity.
    + intros t0 E. injection E as <-. rewrite Ht. clear.
      induction t as [| c t IH]; [reflexivity |].
      simpl. destruct (not_newline c) eqn:E; [| reflexivity].
      simpl. now rewrite E.
Qed.

Lemma strip_app_last (e front rest : str) :
  strip e = front ++ rest ->
  forall t c, front ++ rest = t ++ [c] -> is_space c = false.
Proof. intros H t c E. rewrite E in H. exact (strip_last e t c H). Qed.

(** The two ways in which an entry gives an annotation, with the text of the
    stripped entry in each. *)
Lemma phenotype_entry_inv (entry : str) (a : Phenotype.t) :
  phenotype_entry entry = Some a ->
  (exists name w1 mim w2 k inh,
      a = {| Phenotype.name := name;
             Phenotype.mim_number := Some mim;
             Phenotype.mapping_key := [k];
             Phenotype.inheritance := modes inh |} /\
      strip entry = name ++ COMMA :: w1 :: mim ++ w2 :: LPAREN :: k
                         :: RPAREN :: inheritance_tail (modes inh) /\
      forallb not_newline name = true /\
      is_space w1 = true /\ is_space w2 = true /\
      length mim = 6 /\ forallb is_digit mim = true /\ is_digit k = true) \/
  (exists name k inh,
      a = {| Phenotype.name := name;
             Phenotype.mim_number := None;
             Phenotype.mapping_key := [k];
             Phenotype.inheritance := modes inh |} /\
      strip entry = name ++ LPAREN :: k :: RPAREN
                         :: inheritance_tail (modes inh) /\
      forallb not_newline name = true /\ is_digit k = true /\
      rightmost_A (strip entry) = None).
Proof.
  rewrite phenotype_entry_rightmost.
  destruct (rightmost_A (strip entry)) as [[[[n m] k] i] |] eqn:EA.
  - intros H. injection H as <-. left.
    unfold rightmost_A in EA. apply first_some_cuts_inv in EA.
    destruct EA as (front & b & Hs & Ho & _).
    unfold occurrence_A in Ho. simpl fst in Ho. simpl snd in Ho.
    destruct (forallb not_newline front) eqn:Hn; [| discriminate].
    destruct (mim_key_at b) as [[[m' k'] rest] |] eqn:Em; [| discriminate].
    destruct (inheritance_text rest) as [inh |] eqn:Ei; [| discriminate].
    injection Ho as -> -> -> ->.
    apply mim_key_at_inv in Em.
    destruct Em as (w1 & w2 & kc & -> & -> & Hlen & Hd & Hw1 & Hw2 & Hk).
    assert (Hrest : rest = inheritance_tail (modes i)).
    { refine (proj1 (inheritance_text_stripped
                       (n ++ COMMA :: w1 :: m ++ w2 :: [LPAREN; kc; RPAREN])
                       rest i _ Ei)).
      apply (strip_app_last entry). rewrite Hs.
      rewrite <- app_assoc. simpl. now rewrite <- app_assoc. }
    exists n, w1, m, w2, kc, i. rewrite Hs, <- Hrest. repeat split; assumption.
  - destruct (rightmost_B (strip entry)) as [[[n k] i] |] eqn:EB;
      [| discriminate].
    intros H. injection H as <-. right.
    unfold rightmost_B in EB. apply first_some_cuts_inv in EB.
    destruct EB as (front & b & Hs & Ho & _).
    unfold occurrence_B in Ho. simpl fst in Ho. simpl snd in Ho.
    destruct (forallb not_newline front) eqn:Hn; [| discriminate].
    destruct (key_at b) as [[k' rest] |] eqn:Em; [| discriminate].
    destruct (inheritance_text rest) as [inh |] eqn:Ei; [| discriminate].
    injection Ho as -> -> ->.
    apply key_at_inv in Em. destruct Em as (kc & -> & -> & Hk).
    assert (Hrest : rest = inheritance_tail (modes i)).
    { refine (proj1 (inheritance_text_stripped
                       (n ++ [LPAREN; kc; RPAREN]) rest i _ Ei)).
      apply (strip_app_last entry). rewrite Hs.
      now rewrite <- app_assoc. }
    exists n, kc, i. rewrite Hs, <- Hrest. repeat split; assumption.
Qed.

(** X7. Every annotation has a mapping key of exactly one digit, a name
    without a newline and, when it has a MIM number, one of exactly six
    digits. *)
Theorem annotation_shape (entry : str) (a : Phenotype.t) :
  phenotype_entry entry = Some a ->
  (exists k, Phenotype.mapping_key a = [k] /\ is_digit k = true) /\
  forallb not_newline (Phenotype.name a) = true /\
  (forall mim, Phenotype.mim_number a = Some mim ->
               length mim = 6 /\ forallb is_digit mim = true).
Proof.
  intros H. apply phenotype_entry_inv in H.
  destruct H as [(n & w1 & m & w2 & k & i & -> & _ & Hn & _ & _ & Hl & Hd & Hk)
                | (n & k & i & -> & _ & Hn & Hk & _)]; simpl.
  - split; [now exists k |]. split; [exact Hn |].
    intros mim E. injection E as <-. auto.
  - split; [now exists k |]. split; [exact Hn |]. discriminate.
Qed.

Lemma annotation_shape_witness :
  (exists k, u "3" = [k] /\ is_digit k = true) /\
  forallb not_newline (u "Retinitis pigmentosa") = true /\
  (forall mim, Some (u "268000") = Some mim ->
               length mim = 6 /\ forallb is_digit mim = true).
Proof.
  exact (annotation_shape
           (u "Retinitis pigmentosa, 268000 (3), Autosomal recessive")
           {| Phenotype.name := u "Retinitis pigmentosa";
              Phenotype.mim_number := Some (u "268000");
              Phenotype.mapping_key := u "3";
              Phenotype.inheritance := [u "Autosomal recessive"] |}
           eq_refl).
Defined.

(** X8. An annotation gives the stripped entry back.  With a MIM number
    the entry is the name, a comma, a whitespace character, the number, a
    whitespace character, the key in parentheses and the inheritance modes
    behind ", ", joined by ", "; without a MIM number it is the name, the
    key in parentheses and the modes.  Nothing of the entry is lost but
    which two whitespace characters stood around the number. *)
Theorem annotation_gives_entry_back (entry : str) (a : Phenotype.t) :
  phenotype_entry entry = Some a ->
  match Phenotype.mim_number a with
  | Some mim =>
      exists w1 w2,
        is_space w1 = true /\ is_space w2 = true /\
        strip entry =
        Phenotype.name a ++ COMMA :: w1 :: mim ++ w2 :: LPAREN
          :: Phenotype.mapping_key a ++ RPAREN
          :: inheritance_tail (Phenotype.inheritance a)
  | None =>
      strip entry =
      Phenotype.name a ++ LPAREN :: Phenotype.mapping_key a ++ RPAREN
        :: inheritance_tail (Phenotype.inheritance a)
  end.
Proof.
  intros H. apply phenotype_entry_inv in H.
  destruct H as [(n & w1 & m & w2 & k & i & -> & Hs & _ & H1 & H2 & _)
                | (n & k & i & -> & Hs & _)]; simpl.
  - exists w1, w2. auto.
  - exact Hs.
Qed.

Lemma annotation_gives_entry_back_witness :
  exists w1 w2,
    is_space w1 = true /\ is_space w2 = true /\
    strip (u " Retinitis pigmentosa, 268000 (3), Autosomal recessive")
    = u "Retinitis pigmentosa" ++ COMMA :: w1 :: u "268000" ++ w2 :: LPAREN
        :: u "3" ++ RPAREN :: inheritance_tail [u "Autosomal recessive"].
Proof.
  exact (annotation_gives_entry_back
           (u " Retinitis pigmentosa, 268000 (3), Autosomal recessive")
           {| Phenotype.name := u "Retinitis pigmentosa";
              Phenotype.mim_number := Some (u "268000");
              Phenotype.mapping_key := u "3";
              Phenotype.inheritance := [u "Autosomal recessive"] |}
           eq_refl).
Defined.

Lemma rightmost_B_spec (seg name key : str) (inh : option str) :
  rightmost_B seg = Some (name, key, inh) <->
  exists rest,
    seg = name ++ rest /\
    occurrence_B (name, rest) = Some (name, key, inh) /\
    forall name' rest',
      seg = name' ++ rest' -> length name < length name' ->
      occurrence_B (name', rest') = None.
Proof.
  unfold rightmost_B. split.
  - intros H. apply first_some_cuts_inv in H.
    destruct H as (a & b & Hs & Hf & Hmax).
    assert (a = name).
    { unfold occurrence_B in Hf. simpl in Hf.
      destruct (forallb not_newline a); [| discriminate].
      destruct (key_at b) as [[k r] |]; [| discriminate].
      destruct (inheritance_text r); [| discriminate].
      now inversion Hf. }
    subst a. exists b. auto.
  - intros (rest & Hs & Hf & Hmax).
    now apply (first_some_cuts seg occurrence_B name rest).
Qed.

(** X9. Grammar B binds its name greedily, too: it matches with a given
    name, key and inheritance text exactly when cutting the entry after
    that name leaves "(n)" followed by the end of the entry or by ", " and
    the text, and no cut further right does.  A parenthesised digit inside
    the name is passed over for the last one that can end the entry. *)
Theorem grammar_B_binds_rightmost (entry name key : str) (inh : option str) :
  (exists matcher,
      re_match grammar_B (strip entry) = Some matcher /\
      matcher 1 = Some name /\ matcher 2 = Some key /\ matcher 4 = inh)
  <->
  (exists rest,
      strip entry = name ++ rest /\
      occurrence_B (name, rest) = Some (name, key, inh) /\
      forall name' rest',
        strip entry = name' ++ rest' -> length name < length name' ->
        occurrence_B (name', rest') = None).
Proof.
  pose proof (grammar_B_rightmost (strip entry)) as HB.
  rewrite <- rightmost_B_spec. split.
  - intros (g & Hg & H1 & H2 & H4). rewrite Hg in HB.
    destruct (rightmost_B (strip entry)) as [[[n k] i] |];
      [| discriminate HB].
    simpl in HB. unfold fields_B in HB. rewrite H1, H2, H4 in HB.
    now inversion HB.
  - intros Hr. rewrite Hr in HB.
    destruct (re_match grammar_B (strip entry)) as [g |]; [| discriminate HB].
    exists g. inversion HB. auto.
Qed.

Lemma grammar_B_binds_rightmost_witness :
  exists matcher,
    re_match grammar_B (strip (u "Deafness (type 2)(3), Autosomal dominant"))
    = Some matcher /\
    matcher 1 = Some (u "Deafness (type 2)") /\ matcher 2 = Some (u "3") /\
    matcher 4 = Some (u "Autosomal dominant").
Proof.
  apply (proj2 (grammar_B_binds_rightmost
                  (u "Deafness (type 2)(3), Autosomal dominant")
                  (u "Deafness (type 2)") (u "3")
                  (Some (u "Autosomal dominant")))).
  apply rightmost_B_spec. vm_compute. reflexivity.
Defined.

Lemma strip_outer_spaces (w1 e w2 : str) :
  forallb is_space w1 = true -> forallb is_space w2 = true ->
  strip (w1 ++ e ++ w2) = strip e.
Proof.
  intros H1 H2. rewrite app_assoc, strip_spaces by exact H2.
  unfold strip. now rewrite lstrip_spaces.
Qed.

(** X10. Whitespace around an entry plays no part: the space that follows
    a semicolon in the phenotype field, or one before it, gives the same
    annotation as the entry alone. *)
Theorem entry_outer_whitespace_ignored (w1 entry w2 : str) :
  forallb is_space w1 = true -> forallb is_space w2 = true ->
  phenotype_entry (w1 ++ entry ++ w2) = phenotype_entry entry.
Proof.
  intros H1 H2. unfold phenotype_entry.
  now rewrite (strip_outer_spaces w1 entry w2 H1 H2).
Qed.

Lemma entry_outer_whitespace_ignored_witness :
  phenotype_entry (u " " ++ u "Some syndrome(1)" ++ u " ")
  = phenotype_entry (u "Some syndrome(1)").
Proof.
  apply (entry_outer_whitespace_ignored (u " ") (u "Some syndrome(1)") (u " "));
    reflexivity.
Defined.

(** X11. The annotations of a list of entries are those of its parts, one
    after the other: the loop keeps the order of the entries, an annotation
    is in the result exactly when some entry gives it, and there are never
    more annotations than entries. *)
Theorem phenotype_loop_in_order (before after : list str) :
  phenotype_loop (before ++ after)
  = phenotype_loop before ++ phenotype_loop after /\
  (forall a, In a (phenotype_loop before) <->
             exists entry, In entry before /\ phenotype_entry entry = Some a) /\
  length (phenotype_loop before) <= length before.
Proof.
  split; [| split].
  - induction before as [| e before IH]; simpl; [reflexivity |].
    destruct (phenotype_entry e); simpl; now rewrite IH.
  - intros a. induction before as [| e before IH]; simpl.
    + split; [contradiction | intros (? & [] & _)].
    + destruct (phenotype_entry e) as [b |] eqn:E; simpl; rewrite IH; split.
      * intros [<- | (x & Hx & Ha)]; [exists e; auto | exists x; auto].
      * intros (x & [<- | Hx] & Ha); [left; congruence | right; exists x; auto].
      * intros (x & Hx & Ha). exists x; auto.
      * intros (x & [<- | Hx] & Ha); [congruence | exists x; auto].
  - induction before as [| e before IH]; simpl; [lia |].
    destruct (phenotype_entry e); simpl; lia.
Qed.

Lemma first_some_found {X Y : Type} (f : X -> option Y) (l : list X) (x : X) :
  In x l -> f x <> None -> first_some f l <> None.
Proof.
  induction l as [| y l IH]; simpl; [contradiction |].
  intros [<- | Hin] Hf.
  - destruct (f y); [discriminate | contradiction].
  - destruct (f y); [discriminate | now apply IH].
Qed.

(** X12. On an entry without a newline, whatever Grammar A matches
    Grammar B matches as well, so it is only because Grammar A is tried
    first that such an entry gets its MIM number. *)
Theorem grammar_A_entries_fit_grammar_B (s : str) :
  forallb not_newline s = true ->
  matches grammar_A s = true -> matches grammar_B s = true.
Proof.
  intros Hn HA.
  pose proof (grammar_A_rightmost s) as EA.
  pose proof (grammar_B_rightmost s) as EB.
  unfold matches in *.
  destruct (re_match grammar_A s) as [g |]; [| discriminate HA].
  destruct (rightmost_A s) as [[[[n m] k] i] |] eqn:RA; [| discriminate EA].
  unfold rightmost_A in RA. apply first_some_cuts_inv in RA.
  destruct RA as (front & b & Hs & Ho & _).
  unfold occurrence_A in Ho. simpl fst in Ho. simpl snd in Ho.
  destruct (forallb not_newline front) eqn:Hf; [| discriminate].
  destruct (mim_key_at b) as [[[m' k'] rest] |] eqn:Em; [| discriminate].
  destruct (inheritance_text rest) as [inh |] eqn:Ei; [| discriminate].
  apply mim_key_at_inv in Em.
  destruct Em as (w1 & w2 & kc & -> & -> & _ & _ & _ & _ & Hk).
  assert (HB : rightmost_B s <> None).
  { unfold rightmost_B.
    apply (first_some_found occurrence_B (cuts s)
             (front ++ COMMA :: w1 :: m' ++ [w2], LPAREN :: kc :: RPAREN :: rest)).
    - apply cuts_app. rewrite Hs, <- app_assoc. simpl. now rewrite <- app_assoc.
    - unfold occurrence_B. simpl fst. simpl snd.
      assert (Hfront : forallb not_newline (front ++ COMMA :: w1 :: m' ++ [w2])
                       = true).
      { rewrite Hs in Hn. rewrite forallb_app in Hn |- *.
        apply andb_true_iff in Hn. destruct Hn as [-> Hn]. simpl in Hn |- *.
        apply andb_true_iff in Hn. destruct Hn as [-> Hn].
        rewrite forallb_app in Hn |- *.
        apply andb_true_iff in Hn. destruct Hn as [-> Hn]. simpl in Hn |- *.
        apply andb_true_iff in Hn. destruct Hn as [-> _]. reflexivity. }
      rewrite Hfront. simpl. rewrite Hk. simpl. rewrite Ei. discriminate. }
  destruct (rightmost_B s); [| contradiction].
  now destruct (re_match grammar_B s).
Qed.

Lemma grammar_A_entries_fit_grammar_B_witness :
  matches grammar_B (u "Retinitis pigmentosa, 268000 (3)") = true.
Proof.
  apply (grammar_A_entries_fit_grammar_B (u "Retinitis pigmentosa, 268000 (3)"));
    reflexivity.
Defined.

(** ** [parse_genemap2], beyond the claims *)

Lemma records_in_order_app (l1 l2 : list str) :
  records_in_order (l1 ++ l2) = records_in_order l1 ++ records_in_order l2.
Proof.
  induction l1 as [| line l1 IH]; simpl; [reflexivity |].
  destruct (process_line line) as [[r |] | e]; simpl; now rewrite IH.
Qed.

Lemma record_is_data_line (line : str) (r : GeneRecord) :
  process_line line = Ok (Some r) -> data_line line = true.
Proof.
  intros H. apply process_line_record in H. destruct H as (Hc & Hl & _).
  unfold data_line. rewrite Hc. simpl.
  destruct (is_blank line) eqn:E; [| reflexivity].
  apply blank_one_field in E. rewrite E in Hl. discriminate.
Qed.

Lemma records_in_order_count (lines : list str) :
  length (records_in_order lines) <= length (filter data_line lines).
Proof.
  induction lines as [| line lines IH]; simpl; [lia |].
  destruct (process_line line) as [[r |] | e] eqn:E.
  - rewrite (record_is_data_line line r E). simpl. lia.
  - destruct (data_line line); simpl; lia.
  - destruct (data_line line); simpl; lia.
Qed.

(** A line does not raise: it is a comment or has at most fourteen
    fields. *)
Lemma no_raise_iff (line : str) :
  (forall e, process_line line <> Raise e) <->
  (is_comment line = true \/ length (fields_of line) <= 14).
Proof.
  split.
  - intros H. destruct (is_comment line) eqn:Hc; [now left | right].
    destruct (Nat.le_gt_cases (length (fields_of line)) 14) as [Hl | Hl];
      [exact Hl |].
    elim (H (column_error line)). now apply process_line_overflow.
  - intros H e He. apply process_line_raise in He.
    destruct He as (Hc & Hl & _). destruct H as [H | H]; [congruence | lia].
Qed.

Lemma parse_ok_inv (processes : nat) (filename : str)
      (file : read_outcome) (records : list GeneRecord) :
  parse_genemap2 processes filename file (Ok records) ->
  exists lines,
    file = ReadLines lines /\
    (forall line, In line lines ->
                  is_comment line = true \/ length (fields_of line) <= 14) /\
    records = records_in_order lines.
Proof.
  intros H. inversion H as [| | | | lines parsed Hp]; subst.
  exists lines. split; [reflexivity |].
  apply pool_map_ok_inv in Hp. split.
  - intros line Hin. apply no_raise_iff. intros e He.
    assert (Hr : In (process_line line) (map Ok parsed))
      by (rewrite <- Hp; now apply in_map).
    rewrite He in Hr. apply in_map_iff in Hr.
    destruct Hr as (? & Hr & _). discriminate.
  - now apply kept_entries_records.
Qed.

Lemma parse_ok_intro (processes : nat) (filename : str) (lines : list str) :
  (forall line, In line lines ->
                is_comment line = true \/ length (fields_of line) <= 14) ->
  parse_genemap2 processes filename (ReadLines lines)
                 (Ok (records_in_order lines)).
Proof.
  intros Hall.
  pose proof (parse_in_order_possible processes filename (ReadLines lines))
    as H.
  simpl in H.
  destruct (pool_map_in_order processes process_line lines) as [parsed | e] eqn:E.
  - assert (Hp : pool_map processes process_line lines (Ok parsed))
      by (rewrite <- E; apply pool_map_in_order_possible).
    apply pool_map_ok_inv in Hp.
    now rewrite <- (kept_entries_records lines parsed Hp).
  - exfalso.
    assert (Hp : pool_map processes process_line lines (Raise e))
      by (rewrite <- E; apply pool_map_in_order_possible).
    apply pool_map_raise_inv in Hp. destruct Hp as (bad & Hin & Hr).
    apply (proj2 (no_raise_iff bad) (Hall bad Hin) e Hr).
Qed.

Lemma sample_lines_clean (line : str) :
  In line sample_lines ->
  is_comment line = true \/ length (fields_of line) <= 14.
Proof.
  intros H. simpl in H.
  repeat (destruct H as [<- | H];
          [first [left; reflexivity | right; vm_compute; lia] |]).
  contradiction.
Qed.

(** X13. [parse_genemap2] returns records exactly when the file could be
    read and none of its lines raises (each is a comment or has at most
    fourteen fields); what it returns is then the records of the lines in
    file order, whatever the number of workers and their schedule. *)
Theorem parse_returns_iff (processes : nat) (filename : str)
        (file : read_outcome) (records : list GeneRecord) :
  parse_genemap2 processes filename file (Ok records) <->
  exists lines,
    file = ReadLines lines /\
    (forall line, In line lines ->
                  is_comment line = true \/ length (fields_of line) <= 14) /\
    records = records_in_order lines.
Proof.
  split.
  - apply parse_ok_inv.
  - intros (lines & -> & Hall & ->). now apply parse_ok_intro.
Qed.

Lemma parse_returns_iff_witness :
  parse_genemap2 4 (u "genemap2.txt") (ReadLines sample_lines)
                 (Ok (records_in_order sample_lines)).
Proof.
  apply (proj2 (parse_returns_iff 4 (u "genemap2.txt") (ReadLines sample_lines)
                  (records_in_order sample_lines))).
  exists sample_lines. split; [reflexivity |]. split; [| reflexivity].
  exact sample_lines_clean.
Defined.

(** X14. What [parse_genemap2] returns does not depend on the machine:
    with any two numbers of worker processes, and under any name of the
    file, the same records are returned or none are. *)
Theorem parse_result_independent_of_workers
        (p1 p2 : nat) (name1 name2 : str) (file : read_outcome)
        (records : list GeneRecord) :
  parse_genemap2 p1 name1 file (Ok records) ->
  parse_genemap2 p2 name2 file (Ok records) /\
  forall records',
    parse_genemap2 p2 name2 file (Ok records') -> records' = records.
Proof.
  intros H. apply parse_ok_inv in H. destruct H as (l & -> & Hall & ->).
  split.
  - now apply parse_ok_intro.
  - intros records' H'. apply parse_ok_inv in H'.
    destruct H' as (l' & E & _ & ->). now injection E as <-.
Qed.

Lemma parse_result_independent_of_workers_witness :
  parse_genemap2 1 (u "copy.txt") (ReadLines sample_lines)
                 (Ok (records_in_order sample_lines)).
Proof.
  exact (proj1 (parse_result_independent_of_workers
                  4 1 (u "genemap2.txt") (u "copy.txt")
                  (ReadLines sample_lines) (records_in_order sample_lines)
                  (parse_ok_intro 4 (u "genemap2.txt") sample_lines
                     sample_lines_clean))).
Defined.

(** X15. There are never more records than data lines: the number of
    records returned is at most the number of lines that are neither a
    comment nor blank. *)
Theorem records_at_most_data_lines (processes : nat) (filename : str)
        (lines : list str) (records : list GeneRecord) :
  parse_genemap2 processes filename (ReadLines lines) (Ok records) ->
  length records <= length (filter data_line lines).
Proof.
  intros H. apply parse_ok_inv in H.
  destruct H as (l & E & _ & ->). injection E as <-.
  apply records_in_order_count.
Qed.

(** X16. Parsing two files one after the other and parsing their
    concatenation give the same records: the lines of a file are
    independent of each other. *)
Theorem parse_concatenation (processes : nat) (filename : str)
        (lines1 lines2 : list str) (records : list GeneRecord) :
  parse_genemap2 processes filename (ReadLines (lines1 ++ lines2))
                 (Ok records) <->
  exists records1 records2,
    parse_genemap2 processes filename (ReadLines lines1) (Ok records1) /\
    parse_genemap2 processes filename (ReadLines lines2) (Ok records2) /\
    records = records1 ++ records2.
Proof.
  split.
  - intros H. apply parse_ok_inv in H.
    destruct H as (l & E & Hall & ->). injection E as <-.
    exists (records_in_order lines1), (records_in_order lines2).
    split; [| split].
    + apply parse_ok_intro.
      intros line Hin. apply Hall, in_or_app. now left.
    + apply parse_ok_intro.
      intros line Hin. apply Hall, in_or_app. now right.
    + apply records_in_order_app.
  - intros (r1 & r2 & H1 & H2 & ->).
    apply parse_ok_inv in H1, H2.
    destruct H1 as (l1 & E1 & Hall1 & ->). injection E1 as <-.
    destruct H2 as (l2 & E2 & Hall2 & ->). injection E2 as <-.
    rewrite <- records_in_order_app. apply parse_ok_intro.
    intros line Hin. apply in_app_or in Hin. destruct Hin; auto.
Qed.

(** X17. When exactly one line of the file is not a comment and has more
    than fourteen fields once stripped, and every other line is a comment
    or has at most fourteen fields once stripped, the error of
    [parse_genemap2] is the error of that line, whatever the schedule. *)
Theorem single_bad_line_is_reported (processes : nat) (filename : str)
        (lines : list str) (bad : str) :
  In bad lines ->
  is_comment bad = false -> 14 < length (fields_of bad) ->
  (forall line, In line lines -> line <> bad ->
                is_comment line = true \/ length (fields_of line) <= 14) ->
  forall out,
    parse_genemap2 processes filename (ReadLines lines) out <->
    out = Raise (ValueError
                   (u "Unexpected number of columns in line: " ++ bad)).
Proof.
  intros Hin Hc Hl Hothers.
  assert (Hinv : forall out,
             parse_genemap2 processes filename (ReadLines lines) out ->
             out = Raise (column_error bad)).
  { intros out H. inversion H as [| | | ls e Hp | ls parsed Hp]; subst.
    - apply pool_map_raise_inv in Hp. destruct Hp as (x & Hx & Hr).
      assert (x = bad).
      { destruct (list_eq_dec N.eq_dec x bad) as [E | E]; [exact E |].
        exfalso. apply (proj2 (no_raise_iff x) (Hothers x Hx E) e Hr). }
      subst x. apply process_line_raise in Hr. now destruct Hr as (_ & _ & ->).
    - apply parse_ok_inv in H. destruct H as (l & E & Hall & _).
      injection E as <-. destruct (Hall bad Hin); [congruence | lia]. }
  intros out. split; [apply Hinv |].
  intros ->.
  pose proof (parse_in_order_possible processes filename (ReadLines lines))
    as H.
  rewrite (Hinv _ H) in H. exact H.
Qed.

Lemma records_at_most_data_lines_witness :
  length (records_in_order sample_lines)
  <= length (filter data_line sample_lines).
Proof.
  exact (records_at_most_data_lines 4 (u "genemap2.txt") sample_lines
           (records_in_order sample_lines)
           (parse_ok_intro 4 (u "genemap2.txt") sample_lines
              sample_lines_clean)).
Defined.

Lemma single_bad_line_is_reported_witness :
  parse_genemap2 4 (u "genemap2.txt") (ReadLines overflowing_lines)
    (Raise (ValueError
              (u "Unexpected number of columns in line: "
                 ++ row_fifteen_fields))).
Proof.
  apply (single_bad_line_is_reported 4 (u "genemap2.txt") overflowing_lines
           row_fifteen_fields); try reflexivity.
  - simpl. auto.
  - vm_compute. lia.
  - intros line H Hne. simpl in H.
    destruct H as [<- | [<- | [<- | []]]].
    + left. reflexivity.
    + right. vm_compute. lia.
    + contradiction.
Defined.

(** ** [main] *)

Lemma str_eqb_eq (a b : str) : str_eqb a b = true <-> a = b.
Proof.
  revert b. induction a as [| x a IH]; intros [| y b]; simpl;
    try (split; [discriminate | discriminate]); [tauto |].
  rewrite andb_true_iff, IH. unfold char_eqb. rewrite N.eqb_eq.
  split; [intros [-> ->]; reflexivity | intros H; now inversion H].
Qed.

Section MainFacts.

Variable fs : Pathlib.
Variable processes : nat.

(** The checks pass exactly when the input exists, is a file and has the
    suffix ".txt", and the output path exists and is a directory. *)
Lemma check_paths_none (input_file output_path : path fs) :
  check_paths fs input_file output_path = None <->
  path_exists fs input_file = true /\
  path_is_file fs input_file = true /\
  path_suffix fs input_file = u ".txt" /\
  path_exists fs output_path = true /\
  path_is_dir fs output_path = true.
Proof.
  unfold check_paths. rewrite <- str_eqb_eq.
  destruct (path_exists fs input_file), (path_is_file fs input_file),
    (str_eqb (path_suffix fs input_file) (u ".txt")),
    (path_exists fs output_path), (path_is_dir fs output_path);
    simpl; split; try discriminate; try tauto;
    intros (? & ? & ? & ? & ?); discriminate.
Qed.

(** An error of the checks that is about the input file does not look at
    the output path. *)
Lemma check_paths_input (input_file out1 out2 : path fs) :
  path_exists fs input_file = false \/
  path_is_file fs input_file = false \/
  path_suffix fs input_file <> u ".txt" ->
  check_paths fs input_file out1 = check_paths fs input_file out2 /\
  check_paths fs input_file out1 <> None.
Proof.
  intros H. unfold check_paths.
  destruct (path_exists fs input_file); simpl; [| split; [reflexivity | discriminate]].
  destruct (path_is_file fs input_file); simpl; [| split; [reflexivity | discriminate]].
  destruct (str_eqb (path_suffix fs input_file) (u ".txt")) eqn:E; simpl;
    [| split; [reflexivity | discriminate]].
  apply str_eqb_eq in E. destruct H as [H | [H | H]]; try discriminate.
  contradiction.
Qed.

(** X18. [main] writes its output and ends normally exactly when all five
    checks pass, the file can be read, none of its lines raises and the
    write succeeds; the file written is "output.pickle" under the output
    path and the data written are the records of all lines in file order. *)
Theorem main_dumps_iff (args_input_file : str) (args_output_path : option str)
        (file : path fs) (data : list GeneRecord) :
  main fs processes args_input_file args_output_path (Dumped file data) <->
  path_exists fs (Path fs args_input_file) = true /\
  path_is_file fs (Path fs args_input_file) = true /\
  path_suffix fs (Path fs args_input_file) = u ".txt" /\
  path_exists fs (Path fs (output_path_arg args_output_path)) = true /\
  path_is_dir fs (Path fs (output_path_arg args_output_path)) = true /\
  file = path_div fs (Path fs (output_path_arg args_output_path))
                  (u "output.pickle") /\
  (exists lines,
      read_lines fs (Path fs args_input_file) = ReadLines lines /\
      (forall line, In line lines ->
                    is_comment line = true \/ length (fields_of line) <= 14) /\
      data = records_in_order lines) /\
  dump fs file data = None.
Proof.
  split.
  - intros H. inversion H as [| | d Hc Hp Hd |]; subst.
    apply check_paths_none in Hc. destruct Hc as (H1 & H2 & H3 & H4 & H5).
    apply parse_ok_inv in Hp.
    repeat split; try assumption.
  - intros (H1 & H2 & H3 & H4 & H5 & -> & Hl & Hd).
    apply main_dumps; [| | exact Hd].
    + apply check_paths_none. auto.
    + destruct Hl as (lines & -> & Hall & ->). now apply parse_ok_intro.
Qed.

(** X19. Nothing is written unless everything went well before: when a run
    of [main] reaches the write at all, the checks have passed and the data
    handed to [pickle.dump] are the records of the whole file.  A failed
    check, an unreadable file or a line with too many fields ends the run
    before any output. *)
Theorem main_writes_only_complete_data
        (args_input_file : str) (args_output_path : option str)
        (out : main_outcome (path fs)) :
  main fs processes args_input_file args_output_path out ->
  match out with
  | Aborted e =>
      check_paths fs (Path fs args_input_file)
                  (Path fs (output_path_arg args_output_path)) = Some e \/
      parse_genemap2 processes (path_str fs (Path fs args_input_file))
                     (read_lines fs (Path fs args_input_file)) (Raise e)
  | Dumped file data | DumpFailed file data _ =>
      check_paths fs (Path fs args_input_file)
                  (Path fs (output_path_arg args_output_path)) = None /\
      file = path_div fs (Path fs (output_path_arg args_output_path))
                      (u "output.pickle") /\
      exists lines,
        read_lines fs (Path fs args_input_file) = ReadLines lines /\
        (forall line, In line lines ->
                      is_comment line = true \/
                      length (fields_of line) <= 14) /\
        data = records_in_order lines
  end.
Proof.
  intros H. inversion H as [e Hc | e Hc Hp | d Hc Hp Hd | d e Hc Hp Hd]; subst.
  - now left.
  - now right.
  - apply parse_ok_inv in Hp. auto.
  - apply parse_ok_inv in Hp. auto.
Qed.

(** X20. The input file is checked before the output path: when the input
    file does not exist, is not a file or does not end in ".txt", [main]
    ends in the same way whatever the output path is, and it ends before
    reading or writing anything. *)
Theorem main_checks_input_first
        (args_input_file : str) (out1 out2 : option str)
        (out : main_outcome (path fs)) :
  path_exists fs (Path fs args_input_file) = false \/
  path_is_file fs (Path fs args_input_file) = false \/
  path_suffix fs (Path fs args_input_file) <> u ".txt" ->
  main fs processes args_input_file out1 out ->
  main fs processes args_input_file out2 out /\
  exists e, out = Aborted e /\
            check_paths fs (Path fs args_input_file)
                        (Path fs (output_path_arg out1)) = Some e.
Proof.
  intros Hin H.
  destruct (check_paths_input (Path fs args_input_file)
              (Path fs (output_path_arg out1))
              (Path fs (output_path_arg out2)) Hin) as [Heq Hne].
  inversion H as [e Hc | e Hc Hp | d Hc Hp Hd | d e Hc Hp Hd]; subst;
    try congruence.
  split.
  - apply main_check_fails. now rewrite <- Heq.
  - exists e. auto.
Qed.

(** X21. A line that is not a comment and has more than fourteen fields
    once stripped, in a file that passes the checks, makes [main] end with
    the [ValueError] of such a line, and without any output. *)
Theorem main_overflow_writes_nothing
        (args_input_file : str) (args_output_path : option str)
        (lines : list str) (line : str) :
  check_paths fs (Path fs args_input_file)
              (Path fs (output_path_arg args_output_path)) = None ->
  read_lines fs (Path fs args_input_file) = ReadLines lines ->
  In line lines -> is_comment line = false ->
  14 < length (fields_of line) ->
  (exists out, main fs processes args_input_file args_output_path out) /\
  forall out,
    main fs processes args_input_file args_output_path out ->
    exists bad,
      In bad lines /\ 14 < length (fields_of bad) /\
      out = Aborted (ValueError
                       (u "Unexpected number of columns in line: " ++ bad)).
Proof.
  intros Hc Hr Hin Hcom Hlen.
  assert (Hraise : forall e,
             parse_genemap2 processes (path_str fs (Path fs args_input_file))
                            (ReadLines lines) (Raise e) ->
             exists bad, In bad lines /\ 14 < length (fields_of bad) /\
                         e = column_error bad).
  { intros e H. inversion H as [| | | ls e' Hp |]; subst.
    apply pool_map_raise_inv in Hp. destruct Hp as (bad & Hb & He).
    apply process_line_raise in He. destruct He as (_ & Hl & ->).
    exists bad. auto. }
  assert (Hnot : forall d,
             ~ parse_genemap2 processes (path_str fs (Path fs args_input_file))
                              (ReadLines lines) (Ok d)).
  { intros d H. apply parse_ok_inv in H.
    destruct H as (l & E & Hall & _). injection E as <-.
    destruct (Hall line Hin); [congruence | lia]. }
  split.
  - pose proof (parse_in_order_possible processes
                  (path_str fs (Path fs args_input_file)) (ReadLines lines))
      as H.
    destruct (parse_genemap2_in_order processes
                (path_str fs (Path fs args_input_file)) (ReadLines lines))
      as [d | e].
    + elim (Hnot d H).
    + exists (Aborted e). apply main_parse_raises; [exact Hc | now rewrite Hr].
  - intros out H.
    inversion H as [e Hc' | e Hc' Hp | d Hc' Hp Hd | d e Hc' Hp Hd]; subst;
      try congruence; rewrite Hr in Hp; try (elim (Hnot d Hp)).
    destruct (Hraise e Hp) as (bad & Hb & Hl & ->). exists bad. auto.
Qed.

End MainFacts.

Lemma main_dumps_iff_witness :
  main sample_fs 4 (u "genemap2.txt") None
       (Dumped (u "./output.pickle") (records_in_order sample_lines)).
Proof.
  apply (proj2 (main_dumps_iff sample_fs 4 (u "genemap2.txt") None
                  (u "./output.pickle") (records_in_order sample_lines))).
  repeat split.
  exists sample_lines. split; [reflexivity |]. split; [| reflexivity].
  exact sample_lines_clean.
Defined.

Lemma sample_main_run :
  main sample_fs 4 (u "genemap2.txt") None
       (Dumped (u "./output.pickle") (records_in_order sample_lines)).
Proof.
  apply (main_dumps sample_fs 4 (u "genemap2.txt") None
           (records_in_order sample_lines)); try reflexivity.
  apply parse_ok_intro. exact sample_lines_clean.
Qed.

Lemma main_writes_only_complete_data_witness :
  check_paths sample_fs (u "genemap2.txt") (u ".") = None /\
  u "./output.pickle" = u "." ++ u "/" ++ u "output.pickle" /\
  exists lines,
    ReadLines sample_lines = ReadLines lines /\
    (forall line, In line lines ->
                  is_comment line = true \/ length (fields_of line) <= 14) /\
    records_in_order sample_lines = records_in_order lines.
Proof.
  exact (main_writes_only_complete_data sample_fs 4 (u "genemap2.txt") None
           (Dumped (u "./output.pickle") (records_in_order sample_lines))
           sample_main_run).
Defined.

Lemma main_checks_input_first_witness :
  main sample_fs 4 (u "missing.txt") (Some (u "/nowhere"))
       (Aborted (FileNotFoundError
                   (u "Input file 'missing.txt' does not exist."))).
Proof.
  refine (proj1 (main_checks_input_first sample_fs 4 (u "missing.txt")
                   None (Some (u "/nowhere")) _ _ _)).
  - left. reflexivity.
  - apply main_check_fails. reflexivity.
Defined.

Lemma main_overflow_writes_nothing_witness :
  exists bad,
    In bad overflowing_lines /\ 14 < length (fields_of bad) /\
    main overflow_fs 4 (u "genemap2.txt") None
         (Aborted (ValueError
                     (u "Unexpected number of columns in line: " ++ bad))).
Proof.
  destruct (main_overflow_writes_nothing overflow_fs 4 (u "genemap2.txt") None
              overflowing_lines row_fifteen_fields)
    as [[out Hout] Hall]; try reflexivity.
  - simpl. auto.
  - vm_compute. lia.
  - destruct (Hall out Hout) as (bad & Hin & Hl & E).
    exists bad. split; [exact Hin |]. split; [exact Hl |].
    rewrite <- E. exact Hout.
Defined.

(** * The amended claims *)

(** ** C1: the phenotype field is tested as it stands *)

Lemma strip_all_spaces (w : str) : forallb is_space w = true -> strip w = [].
Proof.
  intros H. unfold strip.
  rewrite <- (app_nil_r w), lstrip_spaces by exact H. reflexivity.
Qed.

Lemma spaces_lack_semicolon (w : str) :
  forallb is_space w = true -> lacks SEMICOLON w = true.
Proof.
  induction w as [| c w IH]; [reflexivity |]. simpl. intros H.
  apply andb_true_iff in H. destruct H as [Hc Hw]. rewrite (IH Hw).
  destruct (char_eqb c SEMICOLON) eqn:E; [| reflexivity].
  apply char_eqb_eq in E. subst c. discriminate Hc.
Qed.

(** A phenotype field of whitespace only holds one entry, which is empty
    once stripped and matches neither grammar. *)
Lemma blank_field_no_annotations (w : str) :
  forallb is_space w = true ->
  phenotype_loop (split w [SEMICOLON]) = [].
Proof.
  intros H.
  assert (Hs : split w [SEMICOLON] = [w]).
  { apply (split_join_char SEMICOLON w []).
    constructor; [now apply spaces_lack_semicolon | constructor]. }
  rewrite Hs. simpl. unfold phenotype_entry.
  now rewrite (strip_all_spaces w H).
Qed.

(** C1, amended: take a line that is not a comment and has exactly
    fourteen fields once stripped of its leading and trailing whitespace.
    [process_line] returns no record exactly when its phenotype field, the
    one at zero-indexed position 12, is the empty string, whatever the
    other thirteen fields hold.  The field is not trimmed: when it is not
    empty a record is returned, with the annotations of the field, and
    when it holds only whitespace that record has an empty [phenotypes]. *)
Theorem empty_phenotype_field_skipped (line : str) :
  is_comment line = false ->
  length (fields_of line) = 14 ->
  (process_line line = Ok None <-> field 12 line = []) /\
  (field 12 line <> [] ->
   exists record,
     process_line line = Ok (Some record) /\
     phenotypes record = phenotype_loop (split (field 12 line) [SEMICOLON]) /\
     (forallb is_space (field 12 line) = true -> phenotypes record = [])).
Proof.
  intros Hc Hlen. split.
  - rewrite (process_line_fourteen _ Hc Hlen).
    destruct (field 12 line); simpl; split; intros H;
      try reflexivity; discriminate.
  - intros Hne.
    destruct (record_of_fourteen_fields line Hc Hlen Hne) as (r & Hr & Hp).
    exists r. split; [exact Hr |]. split; [exact Hp |].
    intros Hw. rewrite Hp. now apply blank_field_no_annotations.
Qed.

Lemma empty_phenotype_field_skipped_witness :
  process_line row_empty_phenotype = Ok None /\
  exists record,
    process_line row_blank_phenotype = Ok (Some record) /\
    phenotypes record = [].
Proof.
  split.
  - apply (proj2 (proj1 (empty_phenotype_field_skipped row_empty_phenotype
                           eq_refl eq_refl))).
    reflexivity.
  - destruct (proj2 (empty_phenotype_field_skipped row_blank_phenotype
                       eq_refl eq_refl)) as (r & Hr & _ & Hw).
    + vm_compute. discriminate.
    + exists r. split; [exact Hr |]. apply Hw. reflexivity.
Defined.

(** ** C3 and C9: fields are counted after the strip *)

(** An exception that [parse_genemap2] raises after reading the lines is
    the exception of one of them. *)
Lemma parse_raise_inv (processes : nat) (filename : str)
      (lines : list str) (e : exn) :
  parse_genemap2 processes filename (ReadLines lines) (Raise e) ->
  exists line, In line lines /\ process_line line = Raise e.
Proof.
  intros H. inversion H as [| | | lines' e' Hp |]; subst.
  now apply pool_map_raise_inv in Hp.
Qed.

(** C3, as the specification states it, fails: [row_leading_tab] is a data
    line that splits into fifteen tab-separated fields, as it is written
    and also with its newline taken off, and yet [process_line] returns a
    record for it, and [parse_genemap2] raises nothing on the file of that
    line and a second one: it returns the records of both.  The strip of
    the line takes the blank first column away and leaves fourteen
    fields. *)
Lemma leading_blank_column_is_no_overflow :
  is_comment row_leading_tab = false /\
  length (split row_leading_tab [TAB]) = 15 /\
  length (split (rstrip row_leading_tab) [TAB]) = 15 /\
  length (fields_of row_leading_tab) = 14 /\
  process_line row_leading_tab = process_line row_one_phenotype /\
  (exists record, process_line row_leading_tab = Ok (Some record)) /\
  (forall e,
      ~ parse_genemap2 4 (u "genemap2.txt") (ReadLines leading_tab_lines)
                       (Raise e)) /\
  parse_genemap2 4 (u "genemap2.txt") (ReadLines leading_tab_lines)
                 (Ok (records_in_order leading_tab_lines)) /\
  length (records_in_order leading_tab_lines) = 2.
Proof.
  assert (Hclean : forall line, In line leading_tab_lines ->
                     is_comment line = true \/ length (fields_of line) <= 14).
  { intros line H. simpl in H.
    destruct H as [<- | [<- | []]]; right; vm_compute; lia. }
  split; [reflexivity |]. split; [reflexivity |]. split; [reflexivity |].
  split; [reflexivity |]. split; [reflexivity |]. split.
  { destruct (process_line row_leading_tab) as [[record |] |] eqn:E;
      [now exists record | discriminate E | discriminate E]. }
  split.
  { intros e H. apply parse_raise_inv in H. destruct H as (line & Hin & Hr).
    apply (proj2 (no_raise_iff line) (Hclean line Hin) e Hr). }
  split; [now apply parse_ok_intro | reflexivity].
Qed.


(** ** C10: a number that is not six digits long, in any entry *)

Lemma first_some_none_inv {X Y : Type} (f : X -> option Y) (l : list X) :
  first_some f l = None -> forall x, In x l -> f x = None.
Proof.
  induction l as [| y l IH]; simpl; intros H x Hx; [contradiction |].
  destruct (f y) eqn:E; [discriminate |].
  destruct Hx as [<- | Hx]; [exact E | now apply IH].
Qed.

(** Where Grammar A finds nothing, no cut of the text is a complete
    occurrence. *)
Lemma rightmost_A_none_cuts (s : str) :
  rightmost_A s = None ->
  forall a b, s = a ++ b -> occurrence_A (a, b) = None.
Proof.
  intros H a b Hs. apply (first_some_none_inv occurrence_A (cuts s) H).
  now apply cuts_app.
Qed.

Lemma entry_text_cut (name number : str) (key : N) (inh : option str) :
  entry_text name number key inh
  = (name ++ COMMA :: SPACE :: number ++ [SPACE])
      ++ LPAREN :: key :: RPAREN
      :: match inh with
         | Some t => COMMA :: SPACE :: t
         | None => []
         end.
Proof.
  unfold entry_text. rewrite <- app_assoc. simpl. now rewrite <- app_assoc.
Qed.

(** The cut in front of the key is an occurrence of Grammar B. *)
Lemma key_cut_fits_B (name number : str) (key : N) (inh : option str) :
  forallb not_newline name = true ->
  forallb is_digit number = true ->
  is_digit key = true ->
  (forall t, inh = Some t -> forallb not_newline t = true) ->
  occurrence_B (name ++ COMMA :: SPACE :: number ++ [SPACE],
                LPAREN :: key :: RPAREN
                  :: match inh with
                     | Some t => COMMA :: SPACE :: t
                     | None => []
                     end)
  = Some (name ++ COMMA :: SPACE :: number ++ [SPACE], [key], inh).
Proof.
  intros Hn Hd Hk Hi. unfold occurrence_B. simpl fst. simpl snd.
  rewrite forallb_app, Hn. simpl forallb.
  rewrite forallb_app. simpl forallb.
  assert (Hnum : forallb not_newline number = true).
  { apply forallb_forall. intros c Hc.
    apply (forallb_in _ _ _ Hd) in Hc.
    unfold not_newline. now rewrite (digit_differs c NEWLINE). }
  rewrite Hnum. simpl. rewrite Hk. simpl.
  destruct inh as [t |]; [| reflexivity].
  specialize (Hi t eq_refl).
  unfold inheritance_text. simpl at_end.
  rewrite (one_line_drop t Hi), (one_line_take t Hi).
  now destruct t.
Qed.

(** Of two fronts of the same text, the shorter one starts the longer. *)
Lemma shorter_front (a b a' b' : str) :
  a ++ b = a' ++ b' -> length a <= length a' -> exists extra, a' = a ++ extra.
Proof.
  intros H Hlen. apply app_eq_app in H. destruct H as (l & [[H1 _] | [H1 _]]).
  - exists []. rewrite app_nil_r.
    assert (l = []).
    { rewrite H1, length_app in Hlen. destruct l; [reflexivity | simpl in Hlen; lia]. }
    subst l. now rewrite app_nil_r in H1.
  - now exists l.
Qed.

(** C10, amended: take an entry that reads name, ", ", number, " (", key,
    ")" and then nothing or ", " and an inheritance text, where the number
    is a run of digits that is not six long, the key is a digit, and name
    and inheritance text hold no newline (as in every entry of a file
    line).  Assume that no complete occurrence of Grammar A, that is ","
    whitespace six digits whitespace "(n)" followed by the end of the entry
    or by ", ", starts anywhere else in the entry than behind the name.
    Then Grammar A fails, Grammar B matches, and the annotation has no MIM
    number and a name that begins with the name, the comma, the digits and
    the space before the parenthesis.  When the inheritance text holds no
    opening parenthesis, the name is exactly that and the mapping key is
    the key. *)
Theorem short_number_falls_to_grammar_B (entry name number : str)
        (key : char) (inh : option str) :
  strip entry = entry_text name number key inh ->
  forallb not_newline name = true ->
  forallb is_digit number = true ->
  length number <> 6 ->
  is_digit key = true ->
  (forall t, inh = Some t -> forallb not_newline t = true) ->
  (forall front rest,
      strip entry = front ++ rest -> front <> name ->
      occurrence_A (front, rest) = None) ->
  matches grammar_A (strip entry) = false /\
  matches grammar_B (strip entry) = true /\
  exists annotation extra,
    phenotype_entry entry = Some annotation /\
    Phenotype.mim_number annotation = None /\
    Phenotype.name annotation = name ++ u ", " ++ number ++ u " " ++ extra /\
    ((forall t, inh = Some t -> lacks LPAREN t = true) ->
     annotation = {| Phenotype.name := name ++ u ", " ++ number ++ u " ";
                     Phenotype.mim_number := None;
                     Phenotype.mapping_key := [key];
                     Phenotype.inheritance := modes inh |}).
Proof.
  intros Hs Hn Hd Hlen Hk Hi Helse.
  assert (HA : rightmost_A (strip entry) = None).
  { unfold rightmost_A. apply first_some_none.
    intros [a b] Hin. apply cuts_app in Hin.
    destruct (list_eq_dec N.eq_dec a name) as [-> | Hne];
      [| now apply Helse].
    rewrite Hs in Hin. unfold entry_text in Hin.
    apply app_inv_head in Hin. subst b.
    unfold occurrence_A. simpl snd.
    rewrite (number_mismatch number _ Hd Hlen).
    now destruct (forallb not_newline (fst (name, COMMA :: SPACE :: number ++
      SPACE :: LPAREN :: key :: RPAREN :: match inh with
                                          | Some t => COMMA :: SPACE :: t
                                          | None => []
                                          end))). }
  pose proof (key_cut_fits_B name number key inh Hn Hd Hk Hi) as Hcut.
  pose proof (entry_text_cut name number key inh) as Htext.
  set (front0 := name ++ COMMA :: SPACE :: number ++ [SPACE]) in *.
  set (rest0 := LPAREN :: key :: RPAREN
                  :: match inh with
                     | Some t => COMMA :: SPACE :: t
                     | None => []
                     end) in *.
  assert (HBne : rightmost_B (strip entry) <> None).
  { unfold rightmost_B.
    apply (first_some_found occurrence_B (cuts (strip entry)) (front0, rest0)).
    - apply cuts_app. now rewrite Hs.
    - rewrite Hcut. discriminate. }
  pose proof (grammar_A_rightmost (strip entry)) as EA.
  pose proof (grammar_B_rightmost (strip entry)) as EB.
  rewrite HA in EA.
  destruct (rightmost_B (strip entry)) as [[[n k] i] |] eqn:HB;
    [| contradiction].
  split; [| split].
  - unfold matches. now destruct (re_match grammar_A (strip entry)).
  - unfold matches. now destruct (re_match grammar_B (strip entry)).
  - pose proof HB as HB'.
    apply rightmost_B_spec in HB'. destruct HB' as (b & Hnb & _ & Hmax).
    assert (Hle : length front0 <= length n).
    { destruct (Nat.le_gt_cases (length front0) (length n)) as [H | H];
        [exact H | exfalso].
      assert (Hc : occurrence_B (front0, rest0) = None)
        by (apply Hmax; [now rewrite Hs | exact H]).
      rewrite Hcut in Hc. discriminate. }
    assert (Hpre : exists extra, n = front0 ++ extra).
    { apply (shorter_front front0 rest0 n b); [| exact Hle].
      now rewrite <- Htext, <- Hs. }
    destruct Hpre as (extra & Hextra).
    exists {| Phenotype.name := n;
              Phenotype.mim_number := None;
              Phenotype.mapping_key := k;
              Phenotype.inheritance := modes i |}, extra.
    split; [now rewrite phenotype_entry_rightmost, HA, HB |].
    split; [reflexivity |]. split.
    + simpl. rewrite Hextra. unfold front0.
      rewrite <- app_assoc. simpl. now rewrite <- app_assoc.
    + intros Hp.
      assert (HB2 : rightmost_B (strip entry) = Some (front0, [key], inh)).
      { rewrite Hs. apply short_number_B; try assumption.
        intros t Ht. split; [now apply Hp | now apply Hi]. }
      rewrite HB in HB2. injection HB2 as -> -> ->.
      reflexivity.
Qed.

Lemma short_number_falls_to_grammar_B_witness :
  (matches grammar_A (strip (u "Deafness, autosomal dominant 3A, 12345 (3)"))
   = false /\
   matches grammar_B (strip (u "Deafness, autosomal dominant 3A, 12345 (3)"))
   = true /\
   phenotype_entry (u "Deafness, autosomal dominant 3A, 12345 (3)")
   = Some {| Phenotype.name := u "Deafness, autosomal dominant 3A, 12345 ";
             Phenotype.mim_number := None;
             Phenotype.mapping_key := u "3";
             Phenotype.inheritance := [] |}) /\
  phenotype_entry (u "Some disease, 12345 (1), Autosomal dominant")
  = Some {| Phenotype.name := u "Some disease, 12345 ";
            Phenotype.mim_number := None;
            Phenotype.mapping_key := u "1";
            Phenotype.inheritance := [u "Autosomal dominant"] |}.
Proof.
  split.
  - destruct (short_number_falls_to_grammar_B
                (u "Deafness, autosomal dominant 3A, 12345 (3)")
                (u "Deafness, autosomal dominant 3A") (u "12345") 51 None)
      as (HA & HB & a & extra & Hp & _ & _ & Hexact);
      [ reflexivity | reflexivity | reflexivity | simpl; lia | reflexivity
      | intros t H; discriminate H
      | intros front rest H _;
        apply (rightmost_A_none_cuts
                 (strip (u "Deafness, autosomal dominant 3A, 12345 (3)")));
        [vm_compute; reflexivity | exact H]
      | ].
    split; [exact HA |]. split; [exact HB |].
    rewrite Hp. f_equal. apply Hexact. intros t H. discriminate H.
  - destruct (short_number_falls_to_grammar_B
                (u "Some disease, 12345 (1), Autosomal dominant")
                (u "Some disease") (u "12345") 49
                (Some (u "Autosomal dominant")))
      as (_ & _ & a & extra & Hp & _ & _ & Hexact);
      [ reflexivity | reflexivity | reflexivity | simpl; lia | reflexivity
      | intros t H; injection H as <-; reflexivity
      | intros front rest H _;
        apply (rightmost_A_none_cuts
                 (strip (u "Some disease, 12345 (1), Autosomal dominant")));
        [vm_compute; reflexivity | exact H]
      | ].
    rewrite Hp. f_equal. apply Hexact.
    intros t H. injection H as <-. reflexivity.
Defined.
